(** * Bottom-band "frosted glass" status bar: a shallow embedding of main.py

    The script is a linear pipeline of Pillow calls: blur the bottom band of
    an image, paste a centred row of icons into it, draw a time caption, save.
    Images are Python objects that are copied, cropped and mutated in place,
    so they live in an explicit store and every function of the script is a
    computation in a state-and-exception monad over that store, the file
    system and the trace of what the script prints and draws. *)

From stdpp Require Import base list strings gmap.
From Stdlib Require Import ZArith Lia Ascii.

Local Open Scope Z_scope.

(** ** Exceptions and results *)

(** The exceptions the modelled library calls raise.  Every one of them is a
    subclass of Python's [Exception], so [except Exception] catches it.
    [ReferenceError] stands for the use of a reference that is not in the
    store, which no name of the script ever is. *)
Inductive exn : Type :=
  | FileNotFoundError (path : string)
  | NotADirectoryError (path : string)
  | IsADirectoryError (path : string)
  | UnidentifiedImageError (path : string)
  | ValueError (msg : string)
  | TypeError (msg : string)
  | OSError (msg : string)
  | ReferenceError.

Inductive Result (A : Type) : Type :=
  | Ok (a : A)
  | Raise (e : exn).
Arguments Ok {A} a.
Arguments Raise {A} e.

(** ** Images as Pillow has them: a size and a pixel buffer *)

Definition Pixel : Type := Z * Z * Z * Z.
Definition Color : Type := Z * Z * Z.
Definition Box : Type := Z * Z * Z * Z.

Definition zero_pixel : Pixel := (0, 0, 0, 0).

Record Image : Type := mkImage {
  im_width : nat;
  im_rows : list (list Pixel)
}.

(** [image.size] *)
Definition size (im : Image) : Z * Z :=
  (Z.of_nat (im_width im), Z.of_nat (length (im_rows im))).

(** Every row of the buffer has the image's width. *)
Definition wf (im : Image) : Prop :=
  Forall (fun row => length row = im_width im) (im_rows im).

(** [image.getpixel((x, y))], [None] outside the image. *)
Definition getpixel (im : Image) (xy : Z * Z) : option Pixel :=
  let '(x, y) := xy in
  if (x <? 0) || (y <? 0) then None
  else
    match im_rows im !! Z.to_nat y with
    | Some row => row !! Z.to_nat x
    | None => None
    end.

(** The integers [a, a+1, ..., b-1]. *)
Definition zrange (a b : Z) : list Z :=
  (fun i => a + Z.of_nat i) <$> seq 0 (Z.to_nat (b - a)).

(** [Image.crop(box)]: a new image holding the region; Pillow refuses a box
    whose right or lower edge lies before its left or upper edge, and fills
    whatever part of the box lies outside the image with zeroes. *)
Definition crop (im : Image) (box : Box) : Result Image :=
  let '(x0, y0, x1, y1) := box in
  if x1 <? x0 then Raise (ValueError "Coordinate 'right' is less than 'left'")
  else if y1 <? y0 then Raise (ValueError "Coordinate 'lower' is less than 'upper'")
  else
    Ok (mkImage (Z.to_nat (x1 - x0))
          ((fun y => (fun x => default zero_pixel (getpixel im (x, y))) <$> zrange x0 x1)
             <$> zrange y0 y1)).

(** [Image.paste(src, box)] with a 4-tuple box and no mask: the pixels of the
    destination inside the box are overwritten by those of [src]; Pillow
    refuses a source whose size is not the size of the box. *)
Definition paste (dst src : Image) (box : Box) : Result Image :=
  let '(x0, y0, x1, y1) := box in
  if decide (size src = (x1 - x0, y1 - y0)) then
    Ok (mkImage (im_width dst)
          (imap (fun y row =>
             imap (fun x p =>
               if (x0 <=? Z.of_nat x) && (Z.of_nat x <? x1) &&
                  (y0 <=? Z.of_nat y) && (Z.of_nat y <? y1)
               then default p (getpixel src (Z.of_nat x - x0, Z.of_nat y - y0))
               else p) row) (im_rows dst)))
  else Raise (ValueError "images do not match").

(** ** The file system, fonts and the external libraries *)

Inductive Node : Type :=
  | File (content : list Byte.byte)
  | Dir (entries : list string).

(** A loaded typeface at a given size ([ImageFont.FreeTypeFont]). *)
Record Font : Type := mkFont {
  font_face : list Byte.byte;
  font_size : Z
}.

(** What the script takes from Pillow without looking inside: codecs, the
    Gaussian filter, mode conversion, Lanczos resampling, masked paste, the
    FreeType text measurement and rasteriser.  Each may raise.  The one law
    the script relies on is that filtering keeps the size of an image. *)
Class Pillow : Type := {
  decode : list Byte.byte -> Result Image;
  save_to : gmap string Node -> string -> Image -> Result (gmap string Node);
  gaussian_blur : Z -> Image -> Result Image;
  convert : string -> Image -> Result Image;
  resize_lanczos : Image -> Z * Z -> Result Image;
  paste_mask : Image -> Image -> Z * Z -> Image -> Result Image;
  load_font : list Byte.byte -> Z -> Result Font;
  textbbox : Font -> Z * Z -> string -> Result Box;
  getmetrics : Font -> Z * Z;
  draw_text : Image -> Z * Z -> string -> Font -> Color -> Result Image;
  gaussian_blur_size : forall radius im out,
    wf im -> gaussian_blur radius im = Ok out -> wf out /\ size out = size im
}.

(** [os.path.join] and [os.path.splitext], which depend on the platform. *)
Class OsPath : Type := {
  path_join : string -> string -> string;
  splitext : string -> string * string
}.

(** ** The world the script runs in *)

Definition ref : Type := nat.

(** The lines the script prints. *)
Inductive Line : Type :=
  | IconLoadFailed (icon_path : string) (e : exn)
  | ImageSaved (output_path : string)
  | ProcessFailed (e : exn)
  | InputMissing (input : string)
  | AllDone.

(** What the script does that can be observed from outside: the lines it
    prints and the drawing calls it issues, in the order it issues them. *)
Inductive Event : Type :=
  | Printed (l : Line)
  | PasteCall (dst : ref) (icon : Image) (xy : Z * Z)
  | TextCall (dst : ref) (xy : Z * Z) (text : string) (font : Font) (fill : Color).

Record World : Type := mkWorld {
  heap : list Image;
  fs : gmap string Node;
  trace : list Event
}.

(** ** A state and exception monad *)

Definition M (A : Type) : Type := World -> Result A * World.

#[export] Instance M_ret : MRet M := fun A a w => (Ok a, w).

#[export] Instance M_bind : MBind M := fun A B f m w =>
  match m w with
  | (Ok a, w') => f a w'
  | (Raise e, w') => (Raise e, w')
  end.

Definition raise {A : Type} (e : exn) : M A := fun w => (Raise e, w).

(** [try: body except Exception as e: handler e] *)
Definition try_catch {A : Type} (body : M A) (handler : exn -> M A) : M A := fun w =>
  match body w with
  | (Ok a, w') => (Ok a, w')
  | (Raise e, w') => handler e w'
  end.

Definition lift {A : Type} (r : Result A) : M A := fun w => (r, w).

(** [for x in l: body x] *)
Fixpoint for_each {A : Type} (l : list A) (body : A -> M unit) : M unit :=
  match l with
  | [] => mret tt
  | x :: l' => body x ;; for_each l' body
  end.

(** [enumerate(l)] *)
Definition enumerate {A : Type} (l : list A) : list (Z * A) :=
  imap (fun i x => (Z.of_nat i, x)) l.

(** [len(l)] *)
Definition len {A : Type} (l : list A) : Z := Z.of_nat (length l).

(** Image objects live in the store: a new object gets the next reference,
    a method that mutates an object replaces the image held at its reference. *)
Definition alloc (im : Image) : M ref := fun w =>
  (Ok (length (heap w)), mkWorld (heap w ++ [im]) (fs w) (trace w)).

Definition load (r : ref) : M Image := fun w =>
  match heap w !! r with
  | Some im => (Ok im, w)
  | None => (Raise ReferenceError, w)
  end.

Definition store (r : ref) (im : Image) : M unit := fun w =>
  (Ok tt, mkWorld (<[r := im]> (heap w)) (fs w) (trace w)).

(** Appends an event to the trace. *)
Definition emit (ev : Event) : M unit := fun w =>
  (Ok tt, mkWorld (heap w) (fs w) (trace w ++ [ev])).

(** [print(...)] *)
Definition print (l : Line) : M unit := emit (Printed l).

(** The content of the file at [path], as [open(path, "rb").read()] gives it. *)
Definition file_content (files : gmap string Node) (path : string)
    : Result (list Byte.byte) :=
  match files !! path with
  | Some (File content) => Ok content
  | Some (Dir _) => Raise (IsADirectoryError path)
  | None => Raise (FileNotFoundError path)
  end.

Definition read_file (path : string) : M (list Byte.byte) := fun w =>
  (file_content (fs w) path, w).

(** [os.path.exists], [os.path.isdir], [os.listdir] *)
Definition os_path_exists (path : string) : M bool := fun w =>
  (Ok (bool_decide (is_Some (fs w !! path))), w).

Definition os_path_isdir (path : string) : M bool := fun w =>
  (Ok (match fs w !! path with Some (Dir _) => true | _ => false end), w).

Definition os_listdir (path : string) : M (list string) := fun w =>
  match fs w !! path with
  | Some (Dir entries) => (Ok entries, w)
  | Some (File _) => (Raise (NotADirectoryError path), w)
  | None => (Raise (FileNotFoundError path), w)
  end.

Section Script.
Context {pil : Pillow} {osp : OsPath}.

(** ** The Pillow operations on image objects *)

(** [image.size] *)
Definition Image_size (image : ref) : M (Z * Z) :=
  im ← load image; mret (size im).

(** [image.copy()]: a new object with the same pixels. *)
Definition Image_copy (image : ref) : M ref :=
  im ← load image; alloc im.

(** [image.crop(box)]: a new object. *)
Definition Image_crop (image : ref) (box : Box) : M ref :=
  im ← load image; out ← lift (crop im box); alloc out.

(** [image.filter(ImageFilter.GaussianBlur(radius=radius))]: a new object. *)
Definition Image_filter_GaussianBlur (image : ref) (radius : Z) : M ref :=
  im ← load image; out ← lift (gaussian_blur radius im); alloc out.

(** [dst.paste(src, box)] mutates [dst]. *)
Definition Image_paste (dst src : ref) (box : Box) : M unit :=
  d ← load dst; s ← load src; out ← lift (paste d s box); store dst out.

(** [Image.open(path)], with the decoding that Pillow defers to the first
    use of the pixels done at once. *)
Definition Image_open (path : string) : M ref :=
  content ← read_file path; im ← lift (decode content); alloc im.

(** [image.convert(mode)]: a new object. *)
Definition Image_convert (image : ref) (mode : string) : M ref :=
  im ← load image; out ← lift (convert mode im); alloc out.

(** [image.resize(sz, Image.LANCZOS)]: a new object. *)
Definition Image_resize (image : ref) (sz : Z * Z) : M ref :=
  im ← load image; out ← lift (resize_lanczos im sz); alloc out.

(** [dst.paste(src, (x, y), mask)] mutates [dst]. *)
Definition Image_paste_mask (dst src : ref) (xy : Z * Z) (mask : ref) : M unit :=
  d ← load dst; s ← load src; m ← load mask;
  emit (PasteCall dst s xy);;
  out ← lift (paste_mask d s xy m); store dst out.

Definition write_image (path : string) (im : Image) : M unit := fun w =>
  match save_to (fs w) path im with
  | Ok fs' => (Ok tt, mkWorld (heap w) fs' (trace w))
  | Raise e => (Raise e, w)
  end.

(** [image.save(path)] *)
Definition Image_save (image : ref) (path : string) : M unit :=
  im ← load image; write_image path im.

(** [ImageFont.truetype(path, sz)] *)
Definition ImageFont_truetype (path : string) (sz : Z) : M Font :=
  try_catch (read_file path) (fun _ => raise (OSError "cannot open resource"))
    ≫= fun face => lift (load_font face sz).

(** [draw.text(xy, text, font=font, fill=fill)] where [draw] was made by
    [ImageDraw.Draw(image)]: it paints into [image] itself. *)
Definition ImageDraw_text (image : ref) (xy : Z * Z) (text : string)
    (font : Font) (fill : Color) : M unit :=
  im ← load image;
  emit (TextCall image xy text font fill);;
  out ← lift (draw_text im xy text font fill); store image out.

(** [ImageDraw.Draw(image)]: a drawing handle on [image], not a copy. *)
Definition ImageDraw_Draw (image : ref) : M ref :=
  _ ← load image; mret image.

(** ** The script

    Python's [//] on integers is floor division, which is [Z.div] for the
    positive divisor 2 used throughout. *)

(** main.py, lines 6-27 *)
Definition apply_bottom_blur (image : ref) (blur_radius blur_height : Z) : M ref :=
  '(width, height) ← Image_size image;
  let blur_height := if height <? blur_height then height else blur_height in
  let bottom_area := (0, height - blur_height, width, height) in
  result ← Image_copy image;
  bottom_part ← Image_crop image bottom_area;
  blurred_bottom ← Image_filter_GaussianBlur bottom_part blur_radius;
  Image_paste result blurred_bottom bottom_area;;
  mret result.

(** main.py, lines 30-58 *)
Definition add_icons_to_blur (image : ref) (icon_paths : list string)
    (blur_height icon_size spacing : Z) : M ref :=
  '(width, height) ← Image_size image;
  let blur_start_y := height - blur_height in
  draw_image ← Image_copy image;
  let total_icons_width :=
    len icon_paths * icon_size + (len icon_paths - 1) * spacing in
  let start_x := (width - total_icons_width) / 2 in
  for_each (enumerate icon_paths) (fun '(i, icon_path) =>
    try_catch
      (opened ← Image_open icon_path;
       icon ← Image_convert opened "RGBA";
       icon ← Image_resize icon (icon_size, icon_size);
       let icon_x := start_x + i * (icon_size + spacing) in
       let icon_y := blur_start_y + (blur_height - icon_size) / 2 in
       Image_paste_mask draw_image icon (icon_x, icon_y) icon)
      (fun e => print (IconLoadFailed icon_path e)));;
  mret draw_image.

(** main.py, lines 61-101 *)
Definition add_time_to_blur (image : ref) (time_text : string)
    (blur_height font_size padding vertical_offset : Z) : M ref :=
  '(width, height) ← Image_size image;
  let blur_start_y := height - blur_height in
  let blur_center_y := blur_start_y + blur_height / 2 in
  draw ← ImageDraw_Draw image;
  font ← ImageFont_truetype "font/YaHei.ttf" font_size;
  bbox ← lift (textbbox font (0, 0) time_text);
  let '(bbox0, bbox1, bbox2, bbox3) := bbox in
  let text_width := bbox2 - bbox0 in
  let text_height := bbox3 - bbox1 in
  let '(ascent, descent) := getmetrics font in
  let text_center_y := ascent - text_height / 2 in
  let text_x := width - text_width - padding in
  let text_y := blur_center_y - text_center_y + vertical_offset in
  let outline_color := (0, 0, 0) in
  for_each [(-1, -1); (0, -1); (1, -1); (-1, 0); (1, 0); (-1, 1); (0, 1); (1, 1)]
    (fun adj =>
       ImageDraw_text draw (text_x + adj.1, text_y + adj.2) time_text font
         outline_color);;
  ImageDraw_text draw (text_x, text_y) time_text font (255, 255, 255);;
  mret image.

(** main.py, lines 104-139; [add_time_to_blur] is called with its default
    [padding=50] and [vertical_offset=0]. *)
Definition process_image (input_path output_path : string)
    (icon_paths : list string) (time_text : string)
    (blur_radius blur_height icon_size spacing font_size : Z) : M unit :=
  try_catch
    (img ← Image_open input_path;
     blurred_img ← apply_bottom_blur img blur_radius blur_height;
     icon_img ← match icon_paths with
                | _ :: _ =>
                    add_icons_to_blur blurred_img icon_paths blur_height icon_size spacing
                | [] => mret blurred_img
                end;
     final_img ← add_time_to_blur icon_img time_text blur_height font_size 50 0;
     Image_save final_img output_path;;
     print (ImageSaved output_path))
    (fun e => print (ProcessFailed e)).

(** The parsed command line ([args] of main.py, lines 143-156). *)
Record Args : Type := mkArgs {
  arg_input : string;
  arg_output : option string;
  arg_radius : Z;
  arg_height : Z;
  arg_iconsize : Z;
  arg_fontsize : Z;
  arg_spacing : Z;
  arg_time : string;
  arg_icons : string
}.

(** main.py, lines 158-203, from the parsed arguments on.  [not args.output]
    holds for a missing and for an empty output. *)
Definition main (args : Args) : M unit :=
  let output :=
    match arg_output args with
    | Some (String c o) => String c o
    | _ => let '(base_name, ext) := splitext (arg_input args) in
           base_name +:+ "_enhanced" +:+ ext
    end in
  input_exists ← os_path_exists (arg_input args);
  if negb input_exists then print (InputMissing (arg_input args))
  else
    let icon_dir := arg_icons args in
    filenames ← os_listdir icon_dir;
    let icon_paths :=
      foldl (fun acc filename => acc ++ [path_join icon_dir filename]) [] filenames in
    is_dir ← os_path_isdir (arg_input args);
    (if is_dir : bool then
       filenames ← os_listdir (arg_input args);
       for_each filenames (fun filename =>
         let input_path := path_join (arg_input args) filename in
         let output_path := path_join output filename in
         process_image input_path output_path icon_paths (arg_time args)
           (arg_radius args) (arg_height args) (arg_iconsize args)
           (arg_spacing args) (arg_fontsize args))
     else
       process_image (arg_input args) output icon_paths (arg_time args)
         (arg_radius args) (arg_height args) (arg_iconsize args)
         (arg_spacing args) (arg_fontsize args));;
    print AllDone.

End Script.

(** ** Auxiliary definitions for the statements *)

(** The world after one more image object has been allocated. *)
Definition push (w : World) (im : Image) : World :=
  mkWorld (heap w ++ [im]) (fs w) (trace w).

(** The clamped band height of [apply_bottom_blur]. *)
Definition clamp_height (height blur_height : Z) : Z :=
  if height <? blur_height then height else blur_height.

(** The paste calls of a trace, in order. *)
Definition paste_calls (evs : list Event) : list (ref * Image * (Z * Z)) :=
  omap (fun ev => match ev with
                  | PasteCall dst icon xy => Some (dst, icon, xy)
                  | _ => None
                  end) evs.

(** The per-file reports of a trace: one line for a saved image, one for a
    file that could not be processed. *)
Definition is_report (ev : Event) : bool :=
  match ev with
  | Printed (ImageSaved _) | Printed (ProcessFailed _) => true
  | _ => false
  end.

Definition reports (evs : list Event) : list Event := List.filter is_report evs.

Section AuxPillow.
Context {pil : Pillow}.

(** The icon that the loop body of [add_icons_to_blur] obtains from a path:
    open, convert to RGBA, resize; on image values. *)
Definition load_icon (files : gmap string Node) (icon_path : string)
    (icon_size : Z) : Result Image :=
  match file_content files icon_path with
  | Raise e => Raise e
  | Ok content =>
      match decode content with
      | Raise e => Raise e
      | Ok opened =>
          match convert "RGBA" opened with
          | Raise e => Raise e
          | Ok icon => resize_lanczos icon (icon_size, icon_size)
          end
      end
  end.

(** One turn of the icon loop, on values: the events it adds to the trace and
    the image it leaves in [draw_image]. *)
Definition icon_turn (files : gmap string Node) (icon_size : Z)
    (slot : Z -> Z * Z) (draw_image : ref) (canvas : Image)
    (turn : Z * string) : list Event * Image :=
  let '(i, icon_path) := turn in
  match load_icon files icon_path icon_size with
  | Raise e => ([Printed (IconLoadFailed icon_path e)], canvas)
  | Ok icon =>
      match paste_mask canvas icon (slot i) icon with
      | Ok canvas' => ([PasteCall draw_image icon (slot i)], canvas')
      | Raise e =>
          ([PasteCall draw_image icon (slot i); Printed (IconLoadFailed icon_path e)],
           canvas)
      end
  end.

Fixpoint icon_turns (files : gmap string Node) (icon_size : Z)
    (slot : Z -> Z * Z) (draw_image : ref) (canvas : Image)
    (turns : list (Z * string)) : list Event * Image :=
  match turns with
  | [] => ([], canvas)
  | turn :: turns' =>
      let '(evs, canvas') := icon_turn files icon_size slot draw_image canvas turn in
      let '(evs', canvas'') :=
        icon_turns files icon_size slot draw_image canvas' turns' in
      (evs ++ evs', canvas'')
  end.

(** The paste call that the icon at index [i] gets when it loads. *)
Definition icon_paste (files : gmap string Node) (icon_size : Z)
    (slot : Z -> Z * Z) (draw_image : ref) (turn : Z * string)
    : option (ref * Image * (Z * Z)) :=
  match load_icon files turn.2 icon_size with
  | Ok icon => Some (draw_image, icon, slot turn.1)
  | Raise _ => None
  end.

(** The slot of the icon at index [i] in a row of [n] icons. *)
Definition icon_slot (width height n blur_height icon_size spacing i : Z) : Z * Z :=
  ((width - (n * icon_size + (n - 1) * spacing)) / 2 + i * (icon_size + spacing),
   (height - blur_height) + (blur_height - icon_size) / 2).

(** The body of the icon loop, for a given slot assignment. *)
Definition icon_body (draw_image : ref) (icon_size : Z) (slot : Z -> Z * Z)
    (turn : Z * string) : M unit :=
  let '(i, icon_path) := turn in
  try_catch
    (opened ← Image_open icon_path;
     icon ← Image_convert opened "RGBA";
     icon ← Image_resize icon (icon_size, icon_size);
     Image_paste_mask draw_image icon (slot i) icon)
    (fun e => print (IconLoadFailed icon_path e)).

(** A sequence of [draw.text] calls on image values. *)
Fixpoint render (im : Image) (text : string) (font : Font)
    (calls : list (Z * Z * Color)) : Result Image :=
  match calls with
  | [] => Ok im
  | (xy, fill) :: calls' =>
      match draw_text im xy text font fill with
      | Ok im' => render im' text font calls'
      | Raise e => Raise e
      end
  end.

(** The font that [ImageFont.truetype] gives for a path and a size. *)
Definition open_font (files : gmap string Node) (path : string) (sz : Z)
    : Result Font :=
  match file_content files path with
  | Ok face => load_font face sz
  | Raise _ => Raise (OSError "cannot open resource")
  end.

End AuxPillow.

(** The trace of a sequence of [draw.text] calls. *)
Definition text_calls (image : ref) (text : string) (font : Font)
    (calls : list (Z * Z * Color)) : list Event :=
  (fun call : Z * Z * Color => TextCall image call.1 text font call.2) <$> calls.

(** The nine [draw.text] calls of the caption anchored at [(x, y)]. *)
Definition caption_calls (x y : Z) : list (Z * Z * Color) :=
  [((x - 1, y - 1), (0, 0, 0)); ((x, y - 1), (0, 0, 0)); ((x + 1, y - 1), (0, 0, 0));
   ((x - 1, y), (0, 0, 0)); ((x + 1, y), (0, 0, 0));
   ((x - 1, y + 1), (0, 0, 0)); ((x, y + 1), (0, 0, 0)); ((x + 1, y + 1), (0, 0, 0));
   ((x, y), (255, 255, 255))].

(** The eight one-pixel offsets of the outline, in the order of the script. *)
Definition outline_offsets : list (Z * Z) :=
  [(-1, -1); (0, -1); (1, -1); (-1, 0); (1, 0); (-1, 1); (0, 1); (1, 1)].

(** [reports_as m l]: whatever the world, [m] only adds to the trace; the
    reports it adds are [l] when it returns and none when it raises. *)
Definition reports_as {A : Type} (m : M A) (l : list Event) : Prop :=
  forall w, exists evs,
    trace (m w).2 = trace w ++ evs /\
    reports evs = match (m w).1 with Ok _ => l | Raise _ => [] end.

(** ** Auxiliary definitions for the further properties *)

Section AuxOpen.
Context {pil : Pillow}.

(** The image that [Image.open] gives for a path, on values. *)
Definition open_image (files : gmap string Node) (path : string) : Result Image :=
  match file_content files path with
  | Ok content => decode content
  | Raise e => Raise e
  end.

End AuxOpen.

(** The events of the icon loop on [draw_image]: paste calls on that object
    and icon diagnostics. *)
Definition is_icon_event (draw_image : ref) (ev : Event) : Prop :=
  (exists icon xy, ev = PasteCall draw_image icon xy) \/
  (exists icon_path e, ev = Printed (IconLoadFailed icon_path e)).

(** A [draw.text] call of [text] on [image]. *)
Definition is_text_call (image : ref) (text : string) (ev : Event) : Prop :=
  exists xy font fill, ev = TextCall image xy text font fill.

(** [painted image text w w']: from [w] to [w'] nothing was allocated, no
    object other than [image] changed, the file system is the same and the
    trace grew by [draw.text] calls of [text] on [image] only. *)
Definition painted (image : ref) (text : string) (w w' : World) : Prop :=
  fs w' = fs w /\
  length (heap w') = length (heap w) /\
  (forall r, r <> image -> heap w' !! r = heap w !! r) /\
  exists evs, trace w' = trace w ++ evs /\ Forall (is_text_call image text) evs.

(** [keeps_files m]: whatever its outcome, [m] leaves the file system as it
    found it. *)
Definition keeps_files {A : Type} (m : M A) : Prop :=
  forall w, fs (m w).2 = fs w.

(** [paints image text m]: whatever its outcome, [m] only paints [text] on
    [image]. *)
Definition paints {A : Type} (image : ref) (text : string) (m : M A) : Prop :=
  forall w, painted image text w (m w).2.

(** [fails_clean files m]: run on a world whose file system is [files], [m]
    raises and leaves the file system as it was. *)
Definition fails_clean {A : Type} (files : gmap string Node) (m : M A) : Prop :=
  forall w, fs w = files -> exists e w', m w = (Raise e, w') /\ fs w' = files.

Section AuxMain.
Context {osp : OsPath}.

(** The output path that [main] settles on: the one given, or the input
    path with [_enhanced] put before its extension when none, or an empty
    one, is given. *)
Definition resolve_output (args : Args) : string :=
  match arg_output args with
  | Some (String c o) => String c o
  | _ => let '(base_name, ext) := splitext (arg_input args) in
         base_name +:+ "_enhanced" +:+ ext
  end.

End AuxMain.

Section AuxSave.
Context {pil : Pillow}.


End AuxSave.

(** ** A small executable instance of the libraries

    Enough of Pillow and of [os.path] to run the script on concrete worlds:
    a three-byte image format, a blur that flattens the band to one colour,
    a font whose glyphs are boxes. *)

Module Demo.

Definition solid (w h : nat) (p : Pixel) : Image :=
  mkImage w (replicate h (replicate w p)).

Definition gradient (w h : nat) (v : Z) : Image :=
  mkImage w
    ((fun y => (fun x => (x, y, v, 255)) <$> zrange 0 (Z.of_nat w))
       <$> zrange 0 (Z.of_nat h)).

Definition byte_val (b : Byte.byte) : nat := N.to_nat (Byte.to_N b).

Definition byte_of (n : nat) : Byte.byte :=
  default Byte.x00 (Byte.of_N (N.of_nat n)).

(** A file holding the bytes [w; h; v] is the [w] by [h] gradient of blue
    level [v]; anything else is not an image. *)
Definition decode_gradient (content : list Byte.byte) : Result Image :=
  match content with
  | [w; h; v] => Ok (gradient (byte_val w) (byte_val h) (Z.of_nat (byte_val v)))
  | _ => Raise (UnidentifiedImageError "cannot identify image file")
  end.

Definition save_stub (files : gmap string Node) (path : string) (im : Image)
    : Result (gmap string Node) :=
  if decide (path = "") then Raise (FileNotFoundError path)
  else
    Ok (<[path := File [byte_of (im_width im); byte_of (length (im_rows im));
                        Byte.x00]]> files).

Definition flatten_blur (radius : Z) (im : Image) : Result Image :=
  if radius <? 0 then Raise (ValueError "radius must be >= 0")
  else
    Ok (mkImage (im_width im)
          ((fun row : list Pixel => (fun _ : Pixel => ((7, 7, 7, 255) : Pixel)) <$> row)
             <$> im_rows im)).

Definition convert_id (mode : string) (im : Image) : Result Image := Ok im.

Definition resize_solid (im : Image) (sz : Z * Z) : Result Image :=
  let '(w, h) := sz in
  if (w <? 0) || (h <? 0) then Raise (ValueError "height and width must be >= 0")
  else Ok (solid (Z.to_nat w) (Z.to_nat h) (default zero_pixel (getpixel im (0, 0)))).

(** Paints [p] over the part of the box that lies inside the image. *)
Definition fill_box (im : Image) (box : Box) (f : Z -> Z -> Pixel -> Pixel) : Image :=
  let '(x0, y0, x1, y1) := box in
  mkImage (im_width im)
    (imap (fun y row =>
       imap (fun x p =>
         if (x0 <=? Z.of_nat x) && (Z.of_nat x <? x1) &&
            (y0 <=? Z.of_nat y) && (Z.of_nat y <? y1)
         then f (Z.of_nat x) (Z.of_nat y) p else p) row) (im_rows im)).

Definition paste_over (dst src : Image) (xy : Z * Z) (mask : Image) : Result Image :=
  let '(x, y) := xy in
  Ok (fill_box dst (x, y, x + (size src).1, y + (size src).2)
        (fun px py p => default p (getpixel src (px - x, py - y)))).

Definition load_box_font (face : list Byte.byte) (sz : Z) : Result Font :=
  if sz <=? 0 then Raise (ValueError "font size must be greater than 0")
  else
    match face with
    | [] => Raise (OSError "unknown file format")
    | _ => Ok (mkFont face sz)
    end.

(** Glyphs are boxes half as wide as the font size, drawn two pixels right of
    the anchor and a quarter of the size below it. *)
Definition box_textbbox (font : Font) (xy : Z * Z) (text : string) : Result Box :=
  let '(x, y) := xy in
  let sz := font_size font in
  Ok (x + 2, y + sz / 4, x + 2 + Z.of_nat (String.length text) * (sz / 2), y + sz).

Definition box_metrics (font : Font) : Z * Z :=
  (font_size font, font_size font / 4).

Definition draw_box_text (im : Image) (xy : Z * Z) (text : string) (font : Font)
    (fill : Color) : Result Image :=
  let '(r, g, b) := fill in
  match box_textbbox font xy text with
  | Ok box => Ok (fill_box im box (fun _ _ _ => (r, g, b, 255)))
  | Raise e => Raise e
  end.

Lemma flatten_blur_size (radius : Z) (im out : Image) :
  wf im -> flatten_blur radius im = Ok out -> wf out /\ size out = size im.
Proof.
  unfold flatten_blur. intros Hwf. destruct (radius <? 0); [discriminate|].
  intros [= <-]. unfold wf, size in *. cbn. rewrite length_fmap. split; [|reflexivity].
  apply Forall_fmap. eapply Forall_impl; [exact Hwf|]. intros row Hrow. cbn.
  now rewrite length_fmap.
Qed.

#[export] Instance pillow : Pillow := {|
  decode := decode_gradient;
  save_to := save_stub;
  gaussian_blur := flatten_blur;
  convert := convert_id;
  resize_lanczos := resize_solid;
  paste_mask := paste_over;
  load_font := load_box_font;
  textbbox := box_textbbox;
  getmetrics := box_metrics;
  draw_text := draw_box_text;
  gaussian_blur_size := flatten_blur_size
|}.

(** [posixpath.join] for two components. *)
Definition posix_join (a b : string) : string :=
  if String.prefix "/" b then b
  else if decide (a = "") then b
  else if decide (String.get (String.length a - 1) a = Some "/"%char) then a +:+ b
  else a +:+ "/" +:+ b.

(** Scans a path from its end for the dot that starts the extension; a
    separator, or a dot that starts the file name, ends the search. *)
Fixpoint split_ext_rev (rev_path ext : list ascii) : option (list ascii * list ascii) :=
  match rev_path with
  | [] => None
  | c :: rest =>
      if decide (c = "/"%char) then None
      else if decide (c = "."%char) then
        match rest with
        | [] => None
        | d :: _ => if decide (d = "/"%char) then None else Some (rest, c :: ext)
        end
      else split_ext_rev rest (c :: ext)
  end.

Definition posix_splitext (p : string) : string * string :=
  match split_ext_rev (rev (String.list_ascii_of_string p)) [] with
  | Some (rev_base, ext) =>
      (String.string_of_list_ascii (rev rev_base), String.string_of_list_ascii ext)
  | None => (p, "")
  end.

#[export] Instance os_path : OsPath := {|
  path_join := posix_join;
  splitext := posix_splitext
|}.

End Demo.

(** ** Concrete worlds for the instances *)

Definition demo_fs : gmap string Node :=
  list_to_map
    [("in.img", File [Demo.byte_of 6; Demo.byte_of 5; Demo.byte_of 3]);
     ("icons", Dir ["a.img"; "b.img"; "c.img"]);
     ("icons/a.img", File [Demo.byte_of 2; Demo.byte_of 2; Demo.byte_of 9]);
     ("icons/b.img", File []);
     ("icons/c.img", File [Demo.byte_of 1; Demo.byte_of 1; Demo.byte_of 8]);
     ("font/YaHei.ttf", File [Demo.byte_of 1])].

(** One 6 by 5 image in the store. *)
Definition demo_world : World :=
  mkWorld [Demo.gradient 6 5 3] demo_fs [].

Definition demo_icons : list string :=
  ["icons/a.img"; "icons/b.img"; "icons/c.img"].

(** The caption "12" drawn on the demo image: band 3, font size 2, padding 1. *)
Definition demo_time_run : Result ref * World :=
  add_time_to_blur (pil := Demo.pillow) 0%nat "12" 3 2 1 0 demo_world.

(** A folder of three images, the second one corrupt. *)
Definition batch_fs : gmap string Node :=
  list_to_map
    [("photos", Dir ["a.img"; "bad.img"; "c.img"]);
     ("photos/a.img", File [Demo.byte_of 6; Demo.byte_of 5; Demo.byte_of 3]);
     ("photos/bad.img", File []);
     ("photos/c.img", File [Demo.byte_of 4; Demo.byte_of 4; Demo.byte_of 1]);
     ("icons", Dir ["a.img"]);
     ("icons/a.img", File [Demo.byte_of 2; Demo.byte_of 2; Demo.byte_of 9]);
     ("font/YaHei.ttf", File [Demo.byte_of 1])].

Definition batch_world : World := mkWorld [] batch_fs [].

Definition batch_args : Args :=
  mkArgs "photos" (Some "out") 1 3 2 2 1 "12" "icons".

(** One 3 by 3 image of the colour that the demo blur produces. *)
Definition flat_world : World :=
  mkWorld [Demo.solid 3 3 (7, 7, 7, 255)] demo_fs [].



(** * Properties *)

(** ** Running the monad *)

Lemma run_bind {A B : Type} (m : M A) (f : A -> M B) (w : World) :
  (m ≫= f) w =
  match m w with
  | (Ok a, w') => f a w'
  | (Raise e, w') => (Raise e, w')
  end.
Proof. reflexivity. Qed.

Lemma run_load (r : ref) (im : Image) (w : World) :
  heap w !! r = Some im -> load r w = (Ok im, w).
Proof. intros Hr. unfold load. now rewrite Hr. Qed.

(** ** The store: allocation appends, assignment replaces *)

(** Allocation appends: the references that were valid keep their image. *)
Lemma lookup_heap_app (h : list Image) (ims : list Image) (r : ref) (im : Image) :
  h !! r = Some im -> (h ++ ims) !! r = Some im.
Proof. intros Hr. now apply lookup_app_l_Some. Qed.

Lemma lookup_heap_fresh (h : list Image) (im : Image) (ims : list Image) :
  (h ++ im :: ims) !! length h = Some im.
Proof. now rewrite list_lookup_middle. Qed.

Lemma insert_heap_fresh (h : list Image) (im x : Image) (ims : list Image) :
  <[length h := x]> (h ++ im :: ims) = h ++ x :: ims.
Proof.
  rewrite insert_app_r_alt by lia. now rewrite Nat.sub_diag.
Qed.

Lemma lookup_insert_heap (h : list Image) (r : ref) (old im : Image) :
  h !! r = Some old -> <[r := im]> h !! r = Some im.
Proof.
  intros Hr. apply list_lookup_insert_eq. eapply lookup_lt_Some; eassumption.
Qed.

Ltac world_simpl :=
  unfold print, emit, push; cbn [heap fs trace fst snd];
  rewrite <- ?app_assoc; cbn [app].

(** ** Images: ranges, crop and paste *)

Section ImageLemmas.

Lemma zrange_length (a b : Z) : length (zrange a b) = Z.to_nat (b - a).
Proof. unfold zrange. now rewrite length_fmap, length_seq. Qed.

Lemma zrange_lookup (a b : Z) (i : nat) :
  (i < Z.to_nat (b - a))%nat -> zrange a b !! i = Some (a + Z.of_nat i).
Proof.
  intros Hi. unfold zrange. rewrite list_lookup_fmap, lookup_seq_lt by assumption.
  reflexivity.
Qed.

Lemma getpixel_lookup (im : Image) (x y : nat) :
  getpixel im (Z.of_nat x, Z.of_nat y) =
  match im_rows im !! y with Some row => row !! x | None => None end.
Proof.
  unfold getpixel.
  replace (Z.of_nat x <? 0) with false by (symmetry; apply Z.ltb_ge; lia).
  replace (Z.of_nat y <? 0) with false by (symmetry; apply Z.ltb_ge; lia).
  cbn. now rewrite !Nat2Z.id.
Qed.

Lemma crop_size (im out : Image) (x0 y0 x1 y1 : Z) :
  crop im (x0, y0, x1, y1) = Ok out ->
  size out = (x1 - x0, y1 - y0) /\ wf out.
Proof.
  unfold crop.
  destruct (x1 <? x0) eqn:Hx; [discriminate|].
  destruct (y1 <? y0) eqn:Hy; [discriminate|].
  apply Z.ltb_ge in Hx, Hy. intros [= <-]. unfold size, wf. cbn. split.
  - rewrite length_fmap, zrange_length. f_equal; lia.
  - apply Forall_fmap, Forall_forall. intros y _. cbn.
    now rewrite length_fmap, zrange_length.
Qed.

(** Cropping a well-formed image to its full extent gives the image back. *)
Lemma crop_whole (im : Image) :
  wf im -> crop im (0, 0, (size im).1, (size im).2) = Ok im.
Proof.
  intros Hwf. destruct im as [w rows]. unfold wf in Hwf. unfold crop, size.
  cbn [fst snd im_width im_rows] in *.
  replace (Z.of_nat w <? 0) with false by (symmetry; apply Z.ltb_ge; lia).
  replace (Z.of_nat (length rows) <? 0) with false by (symmetry; apply Z.ltb_ge; lia).
  rewrite !Z.sub_0_r, Nat2Z.id. do 2 f_equal.
  apply list_eq. intros y. rewrite list_lookup_fmap.
  destruct (decide (y < length rows)%nat) as [Hy|Hy].
  - rewrite zrange_lookup by lia. cbn -[getpixel].
    destruct (lookup_lt_is_Some_2 rows y Hy) as [row Hrow]. rewrite Hrow. f_equal.
    assert (length row = w) as Hlen by (eapply (proj1 (Forall_lookup _ _) Hwf); eauto).
    apply list_eq. intros x. rewrite list_lookup_fmap.
    destruct (decide (x < w)%nat) as [Hx|Hx].
    + rewrite zrange_lookup by lia. cbn -[getpixel].
      rewrite !Z.add_0_l, getpixel_lookup.
      cbn [im_rows]. rewrite Hrow.
      destruct (lookup_lt_is_Some_2 row x ltac:(lia)) as [p Hp]. now rewrite Hp.
    + rewrite (lookup_ge_None_2 row) by lia.
      rewrite lookup_ge_None_2; [reflexivity|]. rewrite zrange_length. lia.
  - rewrite (lookup_ge_None_2 rows) by lia.
    rewrite lookup_ge_None_2; [reflexivity|]. rewrite zrange_length. lia.
Qed.

Lemma paste_size (dst src out : Image) (box : Box) :
  paste dst src box = Ok out -> size out = size dst.
Proof.
  destruct box as [[[x0 y0] x1] y1]. unfold paste.
  case_decide; [|discriminate]. intros [= <-]. unfold size. cbn.
  now rewrite length_imap.
Qed.

(** [paste] leaves every pixel outside the box as it was. *)
Lemma paste_outside (dst src out : Image) (x0 y0 x1 y1 x y : Z) :
  paste dst src (x0, y0, x1, y1) = Ok out ->
  x < x0 \/ x1 <= x \/ y < y0 \/ y1 <= y ->
  getpixel out (x, y) = getpixel dst (x, y).
Proof.
  unfold paste. case_decide; [|discriminate]. intros [= <-] Hout.
  unfold getpixel. cbn.
  destruct ((x <? 0) || (y <? 0)) eqn:Hneg; [reflexivity|].
  apply orb_false_iff in Hneg as [Hx Hy].
  apply Z.ltb_ge in Hx, Hy.
  rewrite list_lookup_imap.
  destruct (im_rows dst !! Z.to_nat y) as [row|]; [|reflexivity]. cbn.
  rewrite list_lookup_imap.
  destruct (row !! Z.to_nat x) as [p|]; [|reflexivity]. cbn.
  rewrite !Z2Nat.id by assumption.
  destruct ((x0 <=? x) && (x <? x1) && (y0 <=? y) && (y <? y1)) eqn:Hin;
    [|reflexivity].
  repeat (apply andb_true_iff in Hin as [Hin ?]).
  apply Z.leb_le in Hin. lia.
Qed.

(** Pasting an image of the same size over the full extent replaces the
    destination by the source. *)
Lemma paste_whole (dst src : Image) :
  wf dst -> wf src -> size src = size dst ->
  paste dst src (0, 0, (size dst).1, (size dst).2) = Ok src.
Proof.
  intros Hd Hs Hsize. unfold paste. rewrite !Z.sub_0_r.
  rewrite decide_True by (rewrite Hsize; now destruct (size dst)).
  destruct dst as [wd rd], src as [ws rs]. unfold wf, size in *.
  cbn [fst snd im_width im_rows] in *.
  injection Hsize as Hw Hl.
  apply Nat2Z.inj in Hw, Hl. subst ws. do 2 f_equal.
  apply list_eq. intros y. rewrite list_lookup_imap.
  destruct (rd !! y) as [row|] eqn:Hrow; cbn -[getpixel].
  - assert (y < length rd)%nat as Hy by (eapply lookup_lt_Some; eauto).
    destruct (lookup_lt_is_Some_2 rs y ltac:(lia)) as [srow Hsrow]. rewrite Hsrow.
    f_equal.
    assert (length row = wd) as Hlr by (eapply (proj1 (Forall_lookup _ _) Hd); eauto).
    assert (length srow = wd) as Hls by (eapply (proj1 (Forall_lookup _ _) Hs); eauto).
    apply list_eq. intros x. rewrite list_lookup_imap.
    destruct (row !! x) as [p|] eqn:Hp; cbn -[getpixel].
    + assert (x < wd)%nat as Hx by (rewrite <- Hlr; eapply lookup_lt_Some; eauto).
      replace ((0 <=? Z.of_nat x) && (Z.of_nat x <? Z.of_nat wd) &&
               (0 <=? Z.of_nat y) && (Z.of_nat y <? Z.of_nat (length rd)))
        with true
        by (symmetry; rewrite !andb_true_iff, !Z.leb_le, !Z.ltb_lt; lia).
      rewrite !Z.sub_0_r, getpixel_lookup. cbn [im_rows]. rewrite Hsrow.
      destruct (lookup_lt_is_Some_2 srow x ltac:(lia)) as [q Hq]. now rewrite Hq.
    + symmetry. apply lookup_ge_None_2. apply lookup_ge_None_1 in Hp. lia.
  - symmetry. apply lookup_ge_None_2. apply lookup_ge_None_1 in Hrow. lia.
Qed.

End ImageLemmas.

(** ** The Pillow operations, run on a world *)

Section Operations.
Context {pil : Pillow}.

Lemma run_Image_size (w : World) (image : ref) (im : Image) :
  heap w !! image = Some im -> Image_size image w = (Ok (size im), w).
Proof. intros Him. unfold Image_size. now rewrite run_bind, (run_load _ _ _ Him). Qed.

Lemma run_Image_copy (w : World) (image : ref) (im : Image) :
  heap w !! image = Some im ->
  Image_copy image w = (Ok (length (heap w)), push w im).
Proof. intros Him. unfold Image_copy. now rewrite run_bind, (run_load _ _ _ Him). Qed.

Lemma run_Image_crop (w : World) (image : ref) (im : Image) (box : Box) :
  heap w !! image = Some im ->
  Image_crop image box w =
  match crop im box with
  | Ok out => (Ok (length (heap w)), push w out)
  | Raise e => (Raise e, w)
  end.
Proof.
  intros Him. unfold Image_crop. rewrite run_bind, (run_load _ _ _ Him), run_bind.
  unfold lift. now destruct (crop im box).
Qed.

Lemma run_Image_filter_GaussianBlur (w : World) (image : ref) (im : Image) (radius : Z) :
  heap w !! image = Some im ->
  Image_filter_GaussianBlur image radius w =
  match gaussian_blur radius im with
  | Ok out => (Ok (length (heap w)), push w out)
  | Raise e => (Raise e, w)
  end.
Proof.
  intros Him. unfold Image_filter_GaussianBlur.
  rewrite run_bind, (run_load _ _ _ Him), run_bind.
  unfold lift. now destruct (gaussian_blur radius im).
Qed.

Lemma run_Image_paste (w : World) (dst src : ref) (d s : Image) (box : Box) :
  heap w !! dst = Some d -> heap w !! src = Some s ->
  Image_paste dst src box w =
  match paste d s box with
  | Ok out => (Ok tt, mkWorld (<[dst := out]> (heap w)) (fs w) (trace w))
  | Raise e => (Raise e, w)
  end.
Proof.
  intros Hd Hs. unfold Image_paste.
  rewrite run_bind, (run_load _ _ _ Hd), run_bind, (run_load _ _ _ Hs), run_bind.
  unfold lift. now destruct (paste d s box).
Qed.

Lemma run_Image_open (w : World) (path : string) :
  Image_open path w =
  match file_content (fs w) path with
  | Raise e => (Raise e, w)
  | Ok content =>
      match decode content with
      | Raise e => (Raise e, w)
      | Ok im => (Ok (length (heap w)), push w im)
      end
  end.
Proof.
  unfold Image_open, read_file. rewrite run_bind.
  destruct (file_content (fs w) path) as [content|e]; [|reflexivity].
  rewrite run_bind. unfold lift. now destruct (decode content).
Qed.

Lemma run_Image_convert (w : World) (image : ref) (im : Image) (mode : string) :
  heap w !! image = Some im ->
  Image_convert image mode w =
  match convert mode im with
  | Ok out => (Ok (length (heap w)), push w out)
  | Raise e => (Raise e, w)
  end.
Proof.
  intros Him. unfold Image_convert. rewrite run_bind, (run_load _ _ _ Him), run_bind.
  unfold lift. now destruct (convert mode im).
Qed.

Lemma run_Image_resize (w : World) (image : ref) (im : Image) (sz : Z * Z) :
  heap w !! image = Some im ->
  Image_resize image sz w =
  match resize_lanczos im sz with
  | Ok out => (Ok (length (heap w)), push w out)
  | Raise e => (Raise e, w)
  end.
Proof.
  intros Him. unfold Image_resize. rewrite run_bind, (run_load _ _ _ Him), run_bind.
  unfold lift. now destruct (resize_lanczos im sz).
Qed.

Lemma run_Image_paste_mask (w : World) (dst src : ref) (d s : Image) (xy : Z * Z) :
  heap w !! dst = Some d -> heap w !! src = Some s ->
  Image_paste_mask dst src xy src w =
  match paste_mask d s xy s with
  | Ok out =>
      (Ok tt, mkWorld (<[dst := out]> (heap w)) (fs w) (trace w ++ [PasteCall dst s xy]))
  | Raise e => (Raise e, mkWorld (heap w) (fs w) (trace w ++ [PasteCall dst s xy]))
  end.
Proof.
  intros Hd Hs. unfold Image_paste_mask.
  rewrite run_bind, (run_load _ _ _ Hd), run_bind, (run_load _ _ _ Hs).
  rewrite run_bind, (run_load _ _ _ Hs), run_bind. unfold emit at 1.
  rewrite run_bind. unfold lift. now destruct (paste_mask d s xy s).
Qed.

Lemma run_ImageFont_truetype (w : World) (path : string) (sz : Z) :
  ImageFont_truetype path sz w = (open_font (fs w) path sz, w).
Proof.
  unfold ImageFont_truetype, open_font, try_catch, read_file, raise.
  rewrite run_bind. now destruct (file_content (fs w) path).
Qed.

Lemma run_ImageDraw_text (w : World) (image : ref) (im : Image) (xy : Z * Z)
    (text : string) (font : Font) (fill : Color) :
  heap w !! image = Some im ->
  ImageDraw_text image xy text font fill w =
  match draw_text im xy text font fill with
  | Ok out =>
      (Ok tt, mkWorld (<[image := out]> (heap w)) (fs w)
                (trace w ++ [TextCall image xy text font fill]))
  | Raise e =>
      (Raise e, mkWorld (heap w) (fs w) (trace w ++ [TextCall image xy text font fill]))
  end.
Proof.
  intros Him. unfold ImageDraw_text.
  rewrite run_bind, (run_load _ _ _ Him), run_bind. unfold emit at 1.
  rewrite run_bind. unfold lift. now destruct (draw_text im xy text font fill).
Qed.

End Operations.

(** ** The blur stage *)

Section BlurStage.
Context {pil : Pillow}.

(** What [apply_bottom_blur] does to the store, written on image values. *)
Lemma apply_bottom_blur_run (w : World) (image : ref) (img : Image)
    (blur_radius blur_height : Z) :
  heap w !! image = Some img ->
  let box := (0, (size img).2 - clamp_height (size img).2 blur_height,
              (size img).1, (size img).2) in
  apply_bottom_blur image blur_radius blur_height w =
  match crop img box with
  | Raise e => (Raise e, mkWorld (heap w ++ [img]) (fs w) (trace w))
  | Ok part =>
      match gaussian_blur blur_radius part with
      | Raise e => (Raise e, mkWorld (heap w ++ [img; part]) (fs w) (trace w))
      | Ok blurred =>
          match paste img blurred box with
          | Raise e =>
              (Raise e, mkWorld (heap w ++ [img; part; blurred]) (fs w) (trace w))
          | Ok out =>
              (Ok (length (heap w)),
               mkWorld (heap w ++ [out; part; blurred]) (fs w) (trace w))
          end
      end
  end.
Proof.
  intros Himg box. unfold apply_bottom_blur.
  rewrite run_bind, (run_Image_size _ _ _ Himg).
  destruct (size img) as [width height] eqn:Hsize. cbn [fst snd] in box.
  fold (clamp_height height blur_height). fold box.
  rewrite run_bind, (run_Image_copy _ _ _ Himg).
  rewrite run_bind, (run_Image_crop _ _ img) by now apply lookup_heap_app.
  destruct (crop img box) as [part|e]; [|reflexivity].
  rewrite run_bind, (run_Image_filter_GaussianBlur _ _ part)
    by (unfold push; cbn; apply lookup_heap_fresh).
  destruct (gaussian_blur blur_radius part) as [blurred|e];
    [|unfold push; cbn; now rewrite <- app_assoc].
  rewrite run_bind, (run_Image_paste _ _ _ img blurred).
  - destruct (paste img blurred box) as [out|e]; unfold push; cbn;
      rewrite <- !app_assoc; cbn; [|reflexivity].
    now rewrite insert_heap_fresh.
  - unfold push; cbn. rewrite <- !app_assoc. apply lookup_heap_fresh.
  - unfold push; cbn. apply lookup_heap_fresh.
Qed.

(** For a band height between 0 and the image height, [apply_bottom_blur]
    returns as soon as the Gaussian filter accepts the band. *)
Lemma apply_bottom_blur_returns (w : World) (image : ref) (img : Image)
    (blur_radius blur_height : Z) :
  heap w !! image = Some img ->
  0 <= blur_height ->
  exists part,
    crop img (0, (size img).2 - clamp_height (size img).2 blur_height,
              (size img).1, (size img).2) = Ok part /\
    forall blurred,
      gaussian_blur blur_radius part = Ok blurred ->
      exists w',
        apply_bottom_blur image blur_radius blur_height w =
        (Ok (length (heap w)), w').
Proof.
  intros Himg Hbh. rewrite (apply_bottom_blur_run _ _ _ _ _ Himg).
  set (box := (0, (size img).2 - clamp_height (size img).2 blur_height,
               (size img).1, (size img).2)).
  assert (0 <= clamp_height (size img).2 blur_height) as Hclamp.
  { unfold clamp_height, size. cbn [snd]. destruct (_ <? _); lia. }
  destruct (crop img box) as [part|e] eqn:Hcrop.
  2:{ unfold crop, box in Hcrop.
      replace ((size img).1 <? 0) with false in Hcrop
        by (symmetry; apply Z.ltb_ge; unfold size; cbn; lia).
      replace ((size img).2 <? _) with false in Hcrop
        by (symmetry; apply Z.ltb_ge; lia).
      discriminate. }
  exists part. split; [reflexivity|]. intros blurred Hblur. rewrite Hblur.
  destruct (crop_size _ _ _ _ _ _ Hcrop) as [Hsize Hwf].
  destruct (gaussian_blur_size _ _ _ Hwf Hblur) as [_ Hsize'].
  unfold paste, box. rewrite decide_True by (rewrite Hsize', Hsize; reflexivity).
  eauto.
Qed.

End BlurStage.

(** ** The icon stage *)

Section IconStage.
Context {pil : Pillow}.

(** One turn of the icon loop never raises; it allocates some images, may
    repaint [draw_image], and adds the events of [icon_turn]. *)
Lemma run_icon_body (w : World) (draw_image : ref) (canvas : Image)
    (icon_size : Z) (slot : Z -> Z * Z) (turn : Z * string) :
  heap w !! draw_image = Some canvas ->
  exists extra,
    icon_body draw_image icon_size slot turn w =
    (Ok tt,
     mkWorld
       (<[draw_image :=
            (icon_turn (fs w) icon_size slot draw_image canvas turn).2]> (heap w)
          ++ extra)
       (fs w)
       (trace w ++ (icon_turn (fs w) icon_size slot draw_image canvas turn).1)).
Proof.
  intros Hd. destruct turn as [i icon_path].
  assert (draw_image < length (heap w))%nat as Hlt by (eapply lookup_lt_Some; eauto).
  unfold icon_body, icon_turn, load_icon, try_catch.
  rewrite run_bind, run_Image_open.
  destruct (file_content (fs w) icon_path) as [content|e].
  2:{ exists []. world_simpl. now rewrite app_nil_r, list_insert_id. }
  destruct (decode content) as [opened|e].
  2:{ exists []. world_simpl. now rewrite app_nil_r, list_insert_id. }
  rewrite run_bind, (run_Image_convert _ _ opened)
    by (world_simpl; apply lookup_heap_fresh).
  destruct (convert "RGBA" opened) as [rgba|e].
  2:{ exists [opened]. world_simpl. now rewrite list_insert_id. }
  rewrite run_bind, (run_Image_resize _ _ rgba)
    by (unfold push; cbn; apply lookup_heap_fresh).
  destruct (resize_lanczos rgba (icon_size, icon_size)) as [icon|e].
  2:{ exists [opened; rgba]. world_simpl. now rewrite list_insert_id. }
  rewrite (run_Image_paste_mask _ _ _ canvas icon).
  - exists [opened; rgba; icon].
    destruct (paste_mask canvas icon (slot i) icon) as [canvas'|e]; world_simpl.
    + now rewrite insert_app_l by assumption.
    + now rewrite list_insert_id by assumption.
  - unfold push; cbn. now do 3 apply lookup_heap_app.
  - unfold push; cbn. apply lookup_heap_fresh.
Qed.

(** The whole icon loop, by induction on the turns still to run. *)
Lemma run_icon_loop (draw_image : ref) (icon_size : Z) (slot : Z -> Z * Z)
    (turns : list (Z * string)) (w : World) (canvas : Image) :
  heap w !! draw_image = Some canvas ->
  exists extra,
    for_each turns (icon_body draw_image icon_size slot) w =
    (Ok tt,
     mkWorld
       (<[draw_image :=
            (icon_turns (fs w) icon_size slot draw_image canvas turns).2]> (heap w)
          ++ extra)
       (fs w)
       (trace w ++ (icon_turns (fs w) icon_size slot draw_image canvas turns).1)).
Proof.
  revert w canvas. induction turns as [|turn turns IH]; intros w canvas Hd.
  - exists []. cbn. rewrite !app_nil_r, list_insert_id by assumption.
    now destruct w.
  - assert (draw_image < length (heap w))%nat as Hlt by (eapply lookup_lt_Some; eauto).
    destruct (run_icon_body w draw_image canvas icon_size slot turn Hd)
      as [extra1 Hturn].
    cbn [for_each icon_turns]. rewrite run_bind, Hturn.
    destruct (icon_turn (fs w) icon_size slot draw_image canvas turn)
      as [evs1 canvas1]. cbn [fst snd].
    set (w1 := mkWorld (<[draw_image := canvas1]> (heap w) ++ extra1) (fs w)
                 (trace w ++ evs1)).
    assert (heap w1 !! draw_image = Some canvas1) as Hd1.
    { cbn. apply lookup_heap_app. eapply lookup_insert_heap; eassumption. }
    destruct (IH w1 canvas1 Hd1) as [extra2 Hrest]. rewrite Hrest.
    cbn [fs heap trace w1].
    destruct (icon_turns (fs w) icon_size slot draw_image canvas1 turns)
      as [evs2 canvas2]. cbn [fst snd].
    exists (extra1 ++ extra2). do 2 f_equal.
    + rewrite insert_app_l by (rewrite length_insert; assumption).
      now rewrite list_insert_insert_eq, <- app_assoc.
    + now rewrite <- app_assoc.
Qed.

Lemma add_icons_to_blur_run (w : World) (image : ref) (img : Image)
    (icon_paths : list string) (blur_height icon_size spacing : Z) :
  heap w !! image = Some img ->
  let draw_image := length (heap w) in
  let slot := icon_slot (size img).1 (size img).2 (len icon_paths)
                blur_height icon_size spacing in
  let turns := icon_turns (fs w) icon_size slot draw_image img (enumerate icon_paths) in
  exists extra,
    add_icons_to_blur image icon_paths blur_height icon_size spacing w =
    (Ok draw_image,
     mkWorld (heap w ++ turns.2 :: extra) (fs w) (trace w ++ turns.1)).
Proof.
  intros Himg draw_image slot turns. unfold add_icons_to_blur.
  rewrite run_bind, (run_Image_size _ _ _ Himg).
  destruct (size img) as [width height] eqn:Hsize. cbn [fst snd] in slot.
  rewrite run_bind, (run_Image_copy _ _ _ Himg). fold draw_image.
  change (for_each (enumerate icon_paths) _)
    with (for_each (enumerate icon_paths) (icon_body draw_image icon_size slot)).
  destruct (run_icon_loop draw_image icon_size slot (enumerate icon_paths)
              (push w img) img) as [extra Hloop].
  { unfold push; cbn. apply lookup_heap_fresh. }
  rewrite run_bind, Hloop. exists extra. unfold push. cbn [heap fs trace].
  fold turns. subst draw_image. now rewrite insert_heap_fresh, <- app_assoc.
Qed.

Lemma paste_calls_app (evs evs' : list Event) :
  paste_calls (evs ++ evs') = paste_calls evs ++ paste_calls evs'.
Proof. apply omap_app. Qed.

Lemma paste_calls_icon_turn (files : gmap string Node) (icon_size : Z)
    (slot : Z -> Z * Z) (draw_image : ref) (canvas : Image) (turn : Z * string) :
  paste_calls (icon_turn files icon_size slot draw_image canvas turn).1 =
  option_list (icon_paste files icon_size slot draw_image turn).
Proof.
  destruct turn as [i icon_path]. unfold icon_turn, icon_paste. cbn [fst snd].
  destruct (load_icon files icon_path icon_size) as [icon|e]; [|reflexivity].
  now destruct (paste_mask canvas icon (slot i) icon).
Qed.

(** The paste calls of the loop are those of the icons that load, each at the
    slot of its own index, whatever happens to the other icons. *)
Lemma paste_calls_icon_turns (files : gmap string Node) (icon_size : Z)
    (slot : Z -> Z * Z) (draw_image : ref) (turns : list (Z * string))
    (canvas : Image) :
  paste_calls (icon_turns files icon_size slot draw_image canvas turns).1 =
  omap (icon_paste files icon_size slot draw_image) turns.
Proof.
  revert canvas. induction turns as [|turn turns IH]; intros canvas; [reflexivity|].
  cbn [icon_turns].
  pose proof (paste_calls_icon_turn files icon_size slot draw_image canvas turn) as Hturn.
  destruct (icon_turn files icon_size slot draw_image canvas turn) as [evs canvas'].
  specialize (IH canvas').
  destruct (icon_turns files icon_size slot draw_image canvas' turns) as [evs' canvas''].
  cbn [fst snd] in *. rewrite paste_calls_app, Hturn, IH. cbn [omap list_omap].
  now destruct (icon_paste files icon_size slot draw_image turn).
Qed.

(** An icon that fails to load leaves its diagnostic in the trace. *)
Lemma icon_turns_diagnostic (files : gmap string Node) (icon_size : Z)
    (slot : Z -> Z * Z) (draw_image : ref) (turns : list (Z * string))
    (canvas : Image) (i : Z) (icon_path : string) (e : exn) :
  (i, icon_path) ∈ turns ->
  load_icon files icon_path icon_size = Raise e ->
  Printed (IconLoadFailed icon_path e)
    ∈ (icon_turns files icon_size slot draw_image canvas turns).1.
Proof.
  intros Hin Hload. revert canvas.
  induction turns as [|turn turns IH]; intros canvas; [inversion Hin|].
  cbn [icon_turns].
  destruct (icon_turn files icon_size slot draw_image canvas turn)
    as [evs canvas'] eqn:Hturn.
  destruct (icon_turns files icon_size slot draw_image canvas' turns)
    as [evs' canvas''] eqn:Hturns.
  cbn [fst]. apply elem_of_app. apply elem_of_cons in Hin as [<-|Hin].
  - left. unfold icon_turn in Hturn. rewrite Hload in Hturn.
    injection Hturn as <- _. apply list_elem_of_here.
  - right. specialize (IH Hin canvas'). now rewrite Hturns in IH.
Qed.

Lemma enumerate_lookup {A : Type} (l : list A) (i : nat) :
  enumerate l !! i = (fun x => (Z.of_nat i, x)) <$> l !! i.
Proof. unfold enumerate. now rewrite list_lookup_imap. Qed.

(** Dropping an element that contributes nothing does not change [omap]. *)
Lemma omap_delete_None {A B : Type} (f : A -> option B) (l : list A) (i : nat) (x : A) :
  l !! i = Some x -> f x = None -> omap f l = omap f (delete i l).
Proof.
  revert i. induction l as [|y l IH]; intros [|i] Hi Hf; try discriminate.
  - injection Hi as ->. cbn. now rewrite Hf.
  - cbn in Hi |- *. now rewrite (IH i Hi Hf).
Qed.

(** The paste calls of [add_icons_to_blur], with the slot arithmetic of the
    script written out. *)
Lemma add_icons_to_blur_calls (w : World) (image : ref) (img : Image)
    (icon_paths : list string) (blur_height icon_size spacing : Z) :
  heap w !! image = Some img ->
  let N := len icon_paths in
  let x0 := ((size img).1 - (N * icon_size + (N - 1) * spacing)) / 2 in
  let y0 := ((size img).2 - blur_height) + (blur_height - icon_size) / 2 in
  let slot i := (x0 + i * (icon_size + spacing), y0) in
  let evs :=
    (icon_turns (fs w) icon_size slot (length (heap w)) img
       (enumerate icon_paths)).1 in
  (exists w',
     add_icons_to_blur image icon_paths blur_height icon_size spacing w =
       (Ok (length (heap w)), w') /\
     trace w' = trace w ++ evs) /\
  paste_calls evs =
    omap (fun '(i, icon_path) =>
            match load_icon (fs w) icon_path icon_size with
            | Ok icon => Some (length (heap w), icon, slot i)
            | Raise _ => None
            end) (enumerate icon_paths).
Proof.
  intros Himg N x0 y0 slot evs.
  destruct (add_icons_to_blur_run w image img icon_paths blur_height icon_size
              spacing Himg) as [extra Hrun].
  split; [eexists; split; [exact Hrun|reflexivity]|].
  unfold evs. rewrite paste_calls_icon_turns.
  apply list_omap_ext. apply Forall2_same_length_lookup.
  split; [reflexivity|]. intros k [i p] [i' p'] Hk Hk'.
  rewrite Hk in Hk'. injection Hk' as <- <-. reflexivity.
Qed.

End IconStage.

(** ** The time stage *)

Section TimeStage.
Context {pil : Pillow}.

(** A loop of [draw.text] calls on one image: either every call succeeds, the
    image object holds the rendering and the trace has every call, or the
    loop raises. *)
Lemma run_draw_loop {A : Type} (image : ref) (text : string) (font : Font)
    (call : A -> Z * Z * Color) (l : list A) (w : World) (im : Image) :
  heap w !! image = Some im ->
  match render im text font (call <$> l) with
  | Ok im' =>
      for_each l (fun a => ImageDraw_text image (call a).1 text font (call a).2) w =
      (Ok tt, mkWorld (<[image := im']> (heap w)) (fs w)
                (trace w ++ text_calls image text font (call <$> l)))
  | Raise e =>
      exists w',
        for_each l (fun a => ImageDraw_text image (call a).1 text font (call a).2) w =
        (Raise e, w')
  end.
Proof.
  revert w im. induction l as [|a l IH]; intros w im Him.
  - cbn. rewrite app_nil_r, list_insert_id by assumption. now destruct w.
  - cbn [for_each fmap list_fmap render].
    destruct (call a) as [xy fill] eqn:Hcall. cbn [fst snd].
    rewrite run_bind, (run_ImageDraw_text _ _ _ _ _ _ _ Him).
    destruct (draw_text im xy text font fill) as [im1|e]; [|eauto].
    set (w1 := mkWorld (<[image := im1]> (heap w)) (fs w)
                 (trace w ++ [TextCall image xy text font fill])).
    assert (heap w1 !! image = Some im1) as Him1
      by (eapply lookup_insert_heap; eassumption).
    specialize (IH w1 im1 Him1).
    destruct (render im1 text font (call <$> l)) as [im'|e]; [|exact IH].
    rewrite IH. unfold w1, text_calls. cbn [heap fs trace fmap list_fmap].
    now rewrite list_insert_insert_eq, <- app_assoc.
Qed.

Lemma render_app (im : Image) (text : string) (font : Font)
    (calls calls' : list (Z * Z * Color)) :
  render im text font (calls ++ calls') =
  match render im text font calls with
  | Ok im' => render im' text font calls'
  | Raise e => Raise e
  end.
Proof.
  revert im. induction calls as [|[xy fill] calls IH]; intros im; [reflexivity|].
  cbn. destruct (draw_text im xy text font fill); [apply IH|reflexivity].
Qed.

Lemma caption_calls_split (x y : Z) :
  caption_calls x y =
  ((fun adj : Z * Z => ((x + adj.1, y + adj.2), (0, 0, 0))) <$> outline_offsets)
    ++ [((x, y), (255, 255, 255))].
Proof.
  unfold caption_calls, outline_offsets. cbn [fmap list_fmap fst snd app].
  now rewrite !Z.add_0_r.
Qed.

Lemma add_time_to_blur_ok (w w' : World) (image result : ref) (img : Image)
    (time_text : string) (blur_height font_size padding vertical_offset : Z) :
  heap w !! image = Some img ->
  add_time_to_blur image time_text blur_height font_size padding vertical_offset w =
    (Ok result, w') ->
  exists font bbox0 bbox1 bbox2 bbox3 img',
    open_font (fs w) "font/YaHei.ttf" font_size = Ok font /\
    textbbox font (0, 0) time_text = Ok (bbox0, bbox1, bbox2, bbox3) /\
    let x := (size img).1 - (bbox2 - bbox0) - padding in
    let y := ((size img).2 - blur_height) + blur_height / 2
             - ((getmetrics font).1 - (bbox3 - bbox1) / 2) + vertical_offset in
    render img time_text font (caption_calls x y) = Ok img' /\
    result = image /\
    w' = mkWorld (<[image := img']> (heap w)) (fs w)
           (trace w ++ text_calls image time_text font (caption_calls x y)).
Proof.
  intros Himg Hrun. unfold add_time_to_blur in Hrun.
  rewrite run_bind, (run_Image_size _ _ _ Himg) in Hrun.
  destruct (size img) as [width height] eqn:Hsize. cbn [fst snd].
  unfold ImageDraw_Draw in Hrun. rewrite !run_bind, (run_load _ _ _ Himg) in Hrun.
  cbn [mret M_ret] in Hrun. rewrite run_bind, run_ImageFont_truetype in Hrun.
  destruct (open_font (fs w) "font/YaHei.ttf" font_size) as [font|e] eqn:Hfont;
    [|discriminate].
  rewrite run_bind in Hrun. unfold lift at 1 in Hrun.
  destruct (textbbox font (0, 0) time_text) as [[[[bbox0 bbox1] bbox2] bbox3]|e]
    eqn:Hbbox; [|discriminate].
  exists font, bbox0, bbox1, bbox2, bbox3.
  destruct (getmetrics font) as [ascent descent] eqn:Hmetrics. cbn [fst snd].
  set (x := width - (bbox2 - bbox0) - padding) in *.
  set (y := height - blur_height + blur_height / 2
            - (ascent - (bbox3 - bbox1) / 2) + vertical_offset) in *.
  rewrite caption_calls_split, render_app. unfold text_calls. rewrite fmap_app.
  pose proof (run_draw_loop image time_text font
                (fun adj : Z * Z => ((x + adj.1, y + adj.2), (0, 0, 0)))
                outline_offsets w img Himg) as Hloop.
  cbn [fst snd] in Hloop. fold (text_calls image time_text font) in Hloop |- *.
  rewrite run_bind in Hrun. fold outline_offsets in Hrun.
  destruct (render img time_text font _) as [img8|e].
  2:{ destruct Hloop as [w1 Hloop]. rewrite Hloop in Hrun. discriminate. }
  rewrite Hloop in Hrun.
  rewrite run_bind, (run_ImageDraw_text _ _ img8) in Hrun
    by (eapply lookup_insert_heap; eassumption).
  cbn [render].
  destruct (draw_text img8 (x, y) time_text font (255, 255, 255)) as [img'|e];
    [|discriminate].
  injection Hrun as <- <-. exists img'.
  cbn [heap fs trace fmap list_fmap fst snd].
  now rewrite list_insert_insert_eq, <- app_assoc.
Qed.

(** [add_time_to_blur] returns as soon as the font loads, the text can be
    measured and the nine calls can be rendered. *)
Lemma add_time_to_blur_returns (w : World) (image : ref) (img img' : Image)
    (time_text : string) (blur_height font_size padding vertical_offset : Z)
    (font : Font) (bbox0 bbox1 bbox2 bbox3 : Z) :
  heap w !! image = Some img ->
  open_font (fs w) "font/YaHei.ttf" font_size = Ok font ->
  textbbox font (0, 0) time_text = Ok (bbox0, bbox1, bbox2, bbox3) ->
  let x := (size img).1 - (bbox2 - bbox0) - padding in
  let y := ((size img).2 - blur_height) + blur_height / 2
           - ((getmetrics font).1 - (bbox3 - bbox1) / 2) + vertical_offset in
  render img time_text font (caption_calls x y) = Ok img' ->
  add_time_to_blur image time_text blur_height font_size padding vertical_offset w =
  (Ok image,
   mkWorld (<[image := img']> (heap w)) (fs w)
     (trace w ++ text_calls image time_text font (caption_calls x y))).
Proof.
  intros Himg Hfont Hbbox x y Hrender. unfold add_time_to_blur.
  rewrite run_bind, (run_Image_size _ _ _ Himg).
  destruct (size img) as [width height] eqn:Hsize. cbn [fst snd] in x, y.
  unfold ImageDraw_Draw. rewrite !run_bind, (run_load _ _ _ Himg).
  cbn [mret M_ret]. rewrite run_bind, run_ImageFont_truetype, Hfont.
  rewrite run_bind. unfold lift at 1. rewrite Hbbox.
  destruct (getmetrics font) as [ascent descent]. cbn [fst snd] in y.
  fold x y. rewrite caption_calls_split, render_app in Hrender.
  pose proof (run_draw_loop image time_text font
                (fun adj : Z * Z => ((x + adj.1, y + adj.2), (0, 0, 0)))
                outline_offsets w img Himg) as Hloop.
  cbn [fst snd] in Hloop.
  destruct (render img time_text font _) as [img8|e]; [|discriminate].
  rewrite run_bind. fold outline_offsets. rewrite Hloop.
  rewrite run_bind, (run_ImageDraw_text _ _ img8)
    by (eapply lookup_insert_heap; eassumption).
  cbn [render] in Hrender.
  destruct (draw_text img8 (x, y) time_text font (255, 255, 255)) as [img9|e];
    [|discriminate].
  injection Hrender as <-. rewrite caption_calls_split. unfold text_calls.
  rewrite fmap_app. cbn [heap fs trace fmap list_fmap fst snd mret M_ret].
  now rewrite list_insert_insert_eq, <- app_assoc.
Qed.

End TimeStage.

(** ** What a computation reports *)

Create HintDb reports discriminated.

Lemma reports_app (evs evs' : list Event) :
  reports (evs ++ evs') = reports evs ++ reports evs'.
Proof. unfold reports. apply List.filter_app. Qed.

Lemma reports_as_ret {A : Type} (a : A) : reports_as (mret a) [].
Proof. intros w. exists []. cbn. now rewrite app_nil_r. Qed.

Lemma reports_as_raise {A : Type} (e : exn) : reports_as (@raise A e) [].
Proof. intros w. exists []. cbn. now rewrite app_nil_r. Qed.

Lemma reports_as_lift {A : Type} (r : Result A) : reports_as (lift r) [].
Proof. intros w. exists []. cbn. rewrite app_nil_r. now destruct r. Qed.

Lemma reports_as_bind {A B : Type} (m : M A) (f : A -> M B) (l : list Event) :
  reports_as m [] -> (forall a, reports_as (f a) l) -> reports_as (m ≫= f) l.
Proof.
  intros Hm Hf w. rewrite run_bind.
  destruct (Hm w) as (evs & Htrace & Hrep).
  destruct (m w) as [[a|e] w1]; cbn [fst snd] in *.
  - destruct (Hf a w1) as (evs' & Htrace' & Hrep').
    exists (evs ++ evs'). rewrite Htrace', Htrace, <- app_assoc, reports_app, Hrep.
    now split.
  - exists evs. now split.
Qed.

Lemma reports_as_try_catch {A : Type} (body : M A) (handler : exn -> M A) :
  reports_as body [] -> (forall e, reports_as (handler e) []) ->
  reports_as (try_catch body handler) [].
Proof.
  intros Hb Hh w. unfold try_catch.
  destruct (Hb w) as (evs & Htrace & Hrep).
  destruct (body w) as [[a|e] w1]; cbn [fst snd] in *.
  - exists evs. now split.
  - destruct (Hh e w1) as (evs' & Htrace' & Hrep').
    exists (evs ++ evs'). rewrite Htrace', Htrace, <- app_assoc, reports_app, Hrep.
    split; [reflexivity|]. cbn [app]. rewrite Hrep'. now destruct (handler e w1).1.
Qed.

Lemma reports_as_for_each {A : Type} (l : list A) (body : A -> M unit) :
  (forall a, reports_as (body a) []) -> reports_as (for_each l body) [].
Proof.
  intros Hbody. induction l as [|a l IH]; cbn [for_each].
  - apply reports_as_ret.
  - apply reports_as_bind; [apply Hbody|intros _; exact IH].
Qed.

Lemma reports_as_alloc (im : Image) : reports_as (alloc im) [].
Proof. intros w. exists []. cbn. now rewrite app_nil_r. Qed.

Lemma reports_as_load (r : ref) : reports_as (load r) [].
Proof.
  intros w. exists []. unfold load. rewrite app_nil_r.
  now destruct (heap w !! r).
Qed.

Lemma reports_as_store (r : ref) (im : Image) : reports_as (store r im) [].
Proof. intros w. exists []. cbn. now rewrite app_nil_r. Qed.

Lemma reports_as_emit (ev : Event) :
  reports_as (emit ev) (if is_report ev then [ev] else []).
Proof. intros w. exists [ev]. cbn. split; [reflexivity|]. now destruct (is_report ev). Qed.

Lemma reports_as_read_file (path : string) : reports_as (read_file path) [].
Proof.
  intros w. exists []. unfold read_file. cbn. rewrite app_nil_r.
  now destruct (file_content (fs w) path).
Qed.

#[export] Hint Resolve reports_as_ret reports_as_raise reports_as_lift
  reports_as_alloc reports_as_load reports_as_store reports_as_read_file
  reports_as_bind reports_as_try_catch reports_as_for_each : reports.

Ltac quiet :=
  repeat first
    [ progress intros
    | match goal with
      | |- reports_as (let '(_, _) := ?p in _) _ => destruct p
      | |- reports_as (match ?p with (_, _) => _ end) _ => destruct p
      | |- reports_as (print _) [] => exact (reports_as_emit _)
      | |- reports_as (emit _) [] => exact (reports_as_emit _)
      | |- reports_as (_ ≫= _) _ => apply reports_as_bind
      | |- reports_as (try_catch _ _) _ => apply reports_as_try_catch
      | |- reports_as (for_each _ _) _ => apply reports_as_for_each
      end
    | solve [auto with reports] ].

Section Reports.
Context {pil : Pillow}.

Lemma reports_as_write_image (path : string) (im : Image) :
  reports_as (write_image path im) [].
Proof.
  intros w. exists []. unfold write_image. rewrite app_nil_r.
  now destruct (save_to (fs w) path im).
Qed.

#[local] Hint Resolve reports_as_write_image : reports.

Lemma reports_as_apply_bottom_blur (image : ref) (blur_radius blur_height : Z) :
  reports_as (apply_bottom_blur image blur_radius blur_height) [].
Proof.
  unfold apply_bottom_blur, Image_size, Image_copy, Image_crop,
    Image_filter_GaussianBlur, Image_paste.
  quiet.
Qed.

Lemma reports_as_add_icons_to_blur (image : ref) (icon_paths : list string)
    (blur_height icon_size spacing : Z) :
  reports_as (add_icons_to_blur image icon_paths blur_height icon_size spacing) [].
Proof.
  unfold add_icons_to_blur, Image_size, Image_copy, Image_open, Image_convert,
    Image_resize, Image_paste_mask.
  quiet.
Qed.

Lemma reports_as_add_time_to_blur (image : ref) (time_text : string)
    (blur_height font_size padding vertical_offset : Z) :
  reports_as (add_time_to_blur image time_text blur_height font_size padding
                vertical_offset) [].
Proof.
  unfold add_time_to_blur, Image_size, ImageDraw_Draw, ImageFont_truetype,
    ImageDraw_text.
  quiet.
Qed.

End Reports.

(** ** The orchestrator *)

Section Orchestrator.
Context {pil : Pillow} {osp : OsPath}.

(** [process_image] never raises, and reports exactly once: the saved path,
    or the exception that stopped it. *)
Lemma process_image_reports (input_path output_path : string)
    (icon_paths : list string) (time_text : string)
    (blur_radius blur_height icon_size spacing font_size : Z) (w : World) :
  exists w' evs,
    process_image input_path output_path icon_paths time_text blur_radius
      blur_height icon_size spacing font_size w = (Ok tt, w') /\
    trace w' = trace w ++ evs /\
    (reports evs = [Printed (ImageSaved output_path)] \/
     exists e, reports evs = [Printed (ProcessFailed e)]).
Proof.
  unfold process_image.
  match goal with |- context [try_catch ?b _] => set (body := b) end.
  assert (reports_as body [Printed (ImageSaved output_path)]) as Hbody.
  { unfold body.
    apply reports_as_bind; [unfold Image_open; quiet|intros img].
    apply reports_as_bind; [apply reports_as_apply_bottom_blur|intros blurred_img].
    apply reports_as_bind;
      [destruct icon_paths; [quiet|apply reports_as_add_icons_to_blur]
      |intros icon_img].
    apply reports_as_bind; [apply reports_as_add_time_to_blur|intros final_img].
    apply reports_as_bind;
      [unfold Image_save; quiet; apply reports_as_write_image|intros _].
    exact (reports_as_emit (Printed (ImageSaved output_path))). }
  unfold try_catch. destruct (Hbody w) as (evs & Htrace & Hrep).
  destruct (body w) as [[[]|e] w1]; cbn [fst snd] in *.
  - exists w1, evs. eauto.
  - eexists _, (evs ++ [Printed (ProcessFailed e)]). split; [reflexivity|].
    cbn [trace]. rewrite Htrace, <- app_assoc. split; [reflexivity|].
    right. exists e. now rewrite reports_app, Hrep.
Qed.

(** A loop of computations that each report once reports once per element,
    in order; no element stops the loop. *)
Lemma for_each_reports {A : Type} (body : A -> M unit) (saved : A -> string)
    (l : list A) (w : World) :
  (forall a w0, exists w' evs,
     body a w0 = (Ok tt, w') /\ trace w' = trace w0 ++ evs /\
     (reports evs = [Printed (ImageSaved (saved a))] \/
      exists e, reports evs = [Printed (ProcessFailed e)])) ->
  exists w' evs,
    for_each l body w = (Ok tt, w') /\ trace w' = trace w ++ evs /\
    Forall2 (fun a report =>
               report = Printed (ImageSaved (saved a)) \/
               exists e, report = Printed (ProcessFailed e)) l (reports evs).
Proof.
  intros Hbody. revert w. induction l as [|a l IH]; intros w.
  - exists w, []. cbn. rewrite app_nil_r. repeat split. constructor.
  - destruct (Hbody a w) as (w1 & evs1 & Hrun1 & Htrace1 & Hrep1).
    destruct (IH w1) as (w' & evs & Hrun & Htrace & Hrep).
    exists w', (evs1 ++ evs). cbn [for_each]. rewrite run_bind, Hrun1.
    split; [exact Hrun|]. split; [now rewrite Htrace, Htrace1, <- app_assoc|].
    rewrite reports_app.
    destruct Hrep1 as [->|[e ->]]; cbn [app]; constructor; eauto.
Qed.

End Orchestrator.

(** ** The image that the icon stage returns *)

Section IconCanvas.
Context {pil : Pillow}.

(** The image left by the turns of the icon loop is the canvas with every
    icon that loads pasted on it, through its own mask, at the slot of its
    index; a turn whose icon does not load, or whose paste raises, leaves
    the canvas as it was. *)
Lemma icon_turns_canvas (files : gmap string Node) (icon_size : Z)
    (slot : Z -> Z * Z) (draw_image : ref) (turns : list (Z * string))
    (canvas : Image) :
  (icon_turns files icon_size slot draw_image canvas turns).2 =
  foldl (fun canvas '(i, icon_path) =>
           match load_icon files icon_path icon_size with
           | Ok icon =>
               match paste_mask canvas icon (slot i) icon with
               | Ok canvas' => canvas'
               | Raise _ => canvas
               end
           | Raise _ => canvas
           end) canvas turns.
Proof.
  revert canvas. induction turns as [|[i icon_path] turns IH]; intros canvas;
    [reflexivity|].
  cbn [icon_turns foldl].
  destruct (icon_turn files icon_size slot draw_image canvas (i, icon_path))
    as [evs canvas'] eqn:Hturn.
  specialize (IH canvas').
  destruct (icon_turns files icon_size slot draw_image canvas' turns)
    as [evs' canvas''].
  cbn [snd] in *. rewrite IH. f_equal.
  unfold icon_turn in Hturn.
  destruct (load_icon files icon_path icon_size) as [icon|e];
    [|now injection Hturn as _ <-].
  destruct (paste_mask canvas icon (slot i) icon); now injection Hturn as _ <-.
Qed.

(** Dropping an element that a fold steps over does not change the fold. *)
Lemma foldl_delete_id {A B : Type} (f : A -> B -> A) (l : list B) (i : nat)
    (x : B) (a : A) :
  l !! i = Some x -> (forall c, f c x = c) -> foldl f a l = foldl f a (delete i l).
Proof.
  revert i a. induction l as [|y l IH]; intros [|i] a Hi Hf; try discriminate.
  - injection Hi as ->. cbn. now rewrite Hf.
  - cbn in Hi |- *. now apply IH.
Qed.

(** [add_icons_to_blur] with the slot arithmetic of the script written out:
    its result, its trace, its paste calls and the image it returns. *)
Lemma add_icons_to_blur_result (w : World) (image : ref) (img : Image)
    (icon_paths : list string) (blur_height icon_size spacing : Z) :
  heap w !! image = Some img ->
  let N := len icon_paths in
  let x0 := ((size img).1 - (N * icon_size + (N - 1) * spacing)) / 2 in
  let y0 := ((size img).2 - blur_height) + (blur_height - icon_size) / 2 in
  let slot i := (x0 + i * (icon_size + spacing), y0) in
  exists w' evs,
    add_icons_to_blur image icon_paths blur_height icon_size spacing w =
      (Ok (length (heap w)), w') /\
    trace w' = trace w ++ evs /\
    fs w' = fs w /\
    (forall r, (r < length (heap w))%nat -> heap w' !! r = heap w !! r) /\
    paste_calls evs =
      omap (fun '(i, icon_path) =>
              match load_icon (fs w) icon_path icon_size with
              | Ok icon => Some (length (heap w), icon, slot i)
              | Raise _ => None
              end) (enumerate icon_paths) /\
    heap w' !! length (heap w) =
      Some (foldl (fun canvas '(i, icon_path) =>
                     match load_icon (fs w) icon_path icon_size with
                     | Ok icon =>
                         match paste_mask canvas icon (slot i) icon with
                         | Ok canvas' => canvas'
                         | Raise _ => canvas
                         end
                     | Raise _ => canvas
                     end) img (enumerate icon_paths)) /\
    (forall i icon_path e,
       icon_paths !! i = Some icon_path ->
       load_icon (fs w) icon_path icon_size = Raise e ->
       Printed (IconLoadFailed icon_path e) ∈ evs).
Proof.
  intros Himg N x0 y0 slot.
  destruct (add_icons_to_blur_run w image img icon_paths blur_height icon_size
              spacing Himg) as [extra Hrun].
  change (icon_slot (size img).1 (size img).2 (len icon_paths) blur_height
            icon_size spacing) with slot in Hrun.
  eexists _, _. split; [exact Hrun|]. cbn [heap fs trace].
  split; [reflexivity|]. split; [reflexivity|]. split; [|split; [|split]].
  - intros r Hr. now rewrite lookup_app_l.
  - rewrite paste_calls_icon_turns.
    apply list_omap_ext. apply Forall2_same_length_lookup.
    split; [reflexivity|]. intros k [i p] [i' p'] Hk Hk'.
    rewrite Hk in Hk'. injection Hk' as <- <-. reflexivity.
  - rewrite lookup_app_r, Nat.sub_diag by lia. cbn [lookup list_lookup].
    f_equal. apply icon_turns_canvas.
  - intros i icon_path e Hi Hload.
    eapply icon_turns_diagnostic; [|exact Hload].
    eapply list_elem_of_lookup_2. now rewrite enumerate_lookup, Hi.
Qed.

End IconCanvas.

(** * The claims *)

Section BlurClaims.
Context {pil : Pillow}.

(** C1.  For a band height that does not exceed the image height, the image
    that [apply_bottom_blur] returns has the size of its input and the same
    pixel at every position strictly above the band, that is in every row
    [y < height - blur_height]. *)
Theorem apply_bottom_blur_above_band (w w' : World) (image result : ref)
    (img : Image) (blur_radius blur_height : Z) :
  heap w !! image = Some img ->
  blur_height <= (size img).2 ->
  apply_bottom_blur image blur_radius blur_height w = (Ok result, w') ->
  exists out,
    heap w' !! result = Some out /\
    size out = size img /\
    forall x y, y < (size img).2 - blur_height ->
      getpixel out (x, y) = getpixel img (x, y).
Proof.
  intros Himg Hle Hrun.
  rewrite (apply_bottom_blur_run _ _ _ _ _ Himg) in Hrun.
  unfold clamp_height in Hrun.
  replace ((size img).2 <? blur_height) with false in Hrun
    by (symmetry; apply Z.ltb_ge; lia).
  destruct (crop img _) as [part|e]; [|discriminate].
  destruct (gaussian_blur blur_radius part) as [blurred|e]; [|discriminate].
  destruct (paste img blurred _) as [out|e] eqn:Hpaste; [|discriminate].
  injection Hrun as <- <-. exists out. cbn [heap]. split; [apply lookup_heap_fresh|].
  split; [eapply paste_size; eassumption|].
  intros x y Hy. eapply paste_outside; [eassumption|]. lia.
Qed.

(** C5.  When the requested band height exceeds the image height the band is
    the whole image: the call behaves as the call with the band height set to
    the image height, and the image it returns is the Gaussian blur of the
    whole input. *)
Theorem apply_bottom_blur_clamps (w : World) (image : ref) (img : Image)
    (blur_radius blur_height : Z) :
  heap w !! image = Some img ->
  wf img ->
  (size img).2 < blur_height ->
  apply_bottom_blur image blur_radius blur_height w =
    apply_bottom_blur image blur_radius (size img).2 w /\
  apply_bottom_blur image blur_radius blur_height w =
    match gaussian_blur blur_radius img with
    | Ok blurred =>
        (Ok (length (heap w)),
         mkWorld (heap w ++ [blurred; img; blurred]) (fs w) (trace w))
    | Raise e => (Raise e, mkWorld (heap w ++ [img; img]) (fs w) (trace w))
    end.
Proof.
  intros Himg Hwf Hlt.
  rewrite !(apply_bottom_blur_run _ _ _ _ _ Himg).
  unfold clamp_height. rewrite Z.ltb_irrefl.
  replace ((size img).2 <? blur_height) with true
    by (symmetry; apply Z.ltb_lt; lia).
  split; [reflexivity|].
  rewrite Z.sub_diag, (crop_whole _ Hwf).
  destruct (gaussian_blur blur_radius img) as [blurred|e] eqn:Hblur; [|reflexivity].
  destruct (gaussian_blur_size _ _ _ Hwf Hblur) as [Hwfb Hsize].
  now rewrite (paste_whole _ _ Hwf Hwfb Hsize).
Qed.

End BlurClaims.

Lemma apply_bottom_blur_above_band_witness :
  exists out,
    heap (apply_bottom_blur (pil := Demo.pillow) 0%nat 1 2 demo_world).2 !! 1%nat = Some out /\
    size out = size (Demo.gradient 6 5 3) /\
    forall x y, y < (size (Demo.gradient 6 5 3)).2 - 2 ->
      getpixel out (x, y) = getpixel (Demo.gradient 6 5 3) (x, y).
Proof.
  apply (apply_bottom_blur_above_band (pil := Demo.pillow) demo_world _ 0%nat 1%nat
           (Demo.gradient 6 5 3) 1 2).
  - reflexivity.
  - vm_compute. discriminate.
  - vm_compute. reflexivity.
Defined.

Lemma apply_bottom_blur_clamps_witness :
  apply_bottom_blur (pil := Demo.pillow) 0%nat 1 9 demo_world =
    apply_bottom_blur (pil := Demo.pillow) 0%nat 1
      (size (Demo.gradient 6 5 3)).2 demo_world /\
  apply_bottom_blur (pil := Demo.pillow) 0%nat 1 9 demo_world =
    match gaussian_blur (Pillow := Demo.pillow) 1 (Demo.gradient 6 5 3) with
    | Ok blurred =>
        (Ok (length (heap demo_world)),
         mkWorld (heap demo_world ++ [blurred; Demo.gradient 6 5 3; blurred])
           (fs demo_world) (trace demo_world))
    | Raise e =>
        (Raise e,
         mkWorld (heap demo_world ++ [Demo.gradient 6 5 3; Demo.gradient 6 5 3])
           (fs demo_world) (trace demo_world))
    end.
Proof.
  apply (apply_bottom_blur_clamps (pil := Demo.pillow) demo_world 0%nat
           (Demo.gradient 6 5 3) 1 9).
  - reflexivity.
  - unfold wf. vm_compute. repeat constructor.
  - vm_compute. reflexivity.
Defined.

Section IconClaims.
Context {pil : Pillow}.

(** C2.  On an image of width [W], a list of [N] icon paths, icon size [s] and
    spacing [g], [add_icons_to_blur] returns a new image: the copy of its
    input on which every icon that loads has been pasted, through its own
    mask and in order, the icon of index [i] at
    [x = (W - (N*s + (N-1)*g)) / 2 + i*(s+g)] and
    [y = (height - blur_height) + (blur_height - s) / 2], with floor division
    (a paste that raises leaves the image as it was and is reported).  The
    paste calls are exactly those of the icons that load, at these
    positions; the leftmost icon is pasted at
    [x = (W - (N*s + (N-1)*g)) / 2]. *)
Theorem add_icons_to_blur_positions (w : World) (image : ref) (img : Image)
    (icon_paths : list string) (blur_height icon_size spacing : Z) :
  heap w !! image = Some img ->
  let W := (size img).1 in
  let height := (size img).2 in
  let N := len icon_paths in
  let x0 := (W - (N * icon_size + (N - 1) * spacing)) / 2 in
  let y0 := (height - blur_height) + (blur_height - icon_size) / 2 in
  exists w' evs,
    add_icons_to_blur image icon_paths blur_height icon_size spacing w =
      (Ok (length (heap w)), w') /\
    trace w' = trace w ++ evs /\
    heap w' !! length (heap w) =
      Some (foldl (fun canvas '(i, icon_path) =>
                     match load_icon (fs w) icon_path icon_size with
                     | Ok icon =>
                         match paste_mask canvas icon
                                 (x0 + i * (icon_size + spacing), y0) icon with
                         | Ok canvas' => canvas'
                         | Raise _ => canvas
                         end
                     | Raise _ => canvas
                     end) img (enumerate icon_paths)) /\
    paste_calls evs =
      omap (fun '(i, icon_path) =>
              match load_icon (fs w) icon_path icon_size with
              | Ok icon =>
                  Some (length (heap w), icon, (x0 + i * (icon_size + spacing), y0))
              | Raise _ => None
              end) (enumerate icon_paths) /\
    forall first rest icon,
      icon_paths = first :: rest ->
      load_icon (fs w) first icon_size = Ok icon ->
      head (paste_calls evs) = Some (length (heap w), icon, (x0, y0)) /\
      forall canvas,
        paste_mask img icon (x0, y0) icon = Ok canvas ->
        heap w' !! length (heap w) =
          Some (foldl (fun canvas '(i, icon_path) =>
                         match load_icon (fs w) icon_path icon_size with
                         | Ok icon =>
                             match paste_mask canvas icon
                                     (x0 + i * (icon_size + spacing), y0) icon with
                             | Ok canvas' => canvas'
                             | Raise _ => canvas
                             end
                         | Raise _ => canvas
                         end) canvas (imap (fun k p => (Z.of_nat (S k), p)) rest)).
Proof.
  intros Himg W height N x0 y0.
  destruct (add_icons_to_blur_result w image img icon_paths blur_height icon_size
              spacing Himg)
    as (w' & evs & Hrun & Htrace & _ & _ & Hcalls & Hcanvas & _).
  exists w', evs. split; [exact Hrun|]. split; [exact Htrace|].
  split; [exact Hcanvas|]. split; [exact Hcalls|].
  intros first rest icon Hpaths Hload. split.
  - rewrite Hcalls. subst icon_paths. cbn. rewrite Hload. cbn.
    now rewrite Z.mul_0_l, Z.add_0_r.
  - intros canvas Hpaste. rewrite Hcanvas. subst icon_paths.
    unfold enumerate. cbn [imap foldl]. rewrite Hload.
    subst W height N x0 y0. change (Z.of_nat 0) with 0.
    rewrite Z.mul_0_l, Z.add_0_r, Hpaste. reflexivity.
Qed.

(** C3.  When the icon at index [i] fails to load (open, decode, convert or
    resize raises), the loop prints its diagnostic and goes on: the image
    returned is the copy of the input on which the icons of the remaining
    turns have been pasted, every other icon [j] that loads at
    [x = x0 + j*(s+g)] where [x0] is still computed from the full number of
    paths; the paste calls are those of the remaining turns at the same
    positions; the slots are not re-flowed. *)
Theorem failed_icon_keeps_slots (w : World) (image : ref) (img : Image)
    (icon_paths : list string) (blur_height icon_size spacing : Z)
    (i : nat) (icon_path : string) (e : exn) :
  heap w !! image = Some img ->
  icon_paths !! i = Some icon_path ->
  load_icon (fs w) icon_path icon_size = Raise e ->
  let W := (size img).1 in
  let height := (size img).2 in
  let N := len icon_paths in
  let x0 := (W - (N * icon_size + (N - 1) * spacing)) / 2 in
  let y0 := (height - blur_height) + (blur_height - icon_size) / 2 in
  exists w' evs,
    add_icons_to_blur image icon_paths blur_height icon_size spacing w =
      (Ok (length (heap w)), w') /\
    trace w' = trace w ++ evs /\
    Printed (IconLoadFailed icon_path e) ∈ evs /\
    heap w' !! length (heap w) =
      Some (foldl (fun canvas '(j, path) =>
                     match load_icon (fs w) path icon_size with
                     | Ok icon =>
                         match paste_mask canvas icon
                                 (x0 + j * (icon_size + spacing), y0) icon with
                         | Ok canvas' => canvas'
                         | Raise _ => canvas
                         end
                     | Raise _ => canvas
                     end) img (delete i (enumerate icon_paths))) /\
    paste_calls evs =
      omap (fun '(j, path) =>
              match load_icon (fs w) path icon_size with
              | Ok icon =>
                  Some (length (heap w), icon, (x0 + j * (icon_size + spacing), y0))
              | Raise _ => None
              end) (delete i (enumerate icon_paths)) /\
    forall (j : nat) path icon,
      j <> i ->
      icon_paths !! j = Some path ->
      load_icon (fs w) path icon_size = Ok icon ->
      (length (heap w), icon, (x0 + Z.of_nat j * (icon_size + spacing), y0))
        ∈ paste_calls evs.
Proof.
  intros Himg Hi Hload W height N x0 y0.
  destruct (add_icons_to_blur_result w image img icon_paths blur_height icon_size
              spacing Himg)
    as (w' & evs & Hrun & Htrace & _ & _ & Hcalls & Hcanvas & Hdiag).
  exists w', evs. split; [exact Hrun|]. split; [exact Htrace|].
  assert (enumerate icon_paths !! i = Some (Z.of_nat i, icon_path)) as Hturn
    by (now rewrite enumerate_lookup, Hi).
  split; [|split; [|split]].
  - eapply Hdiag; eassumption.
  - rewrite Hcanvas. f_equal. eapply foldl_delete_id; [exact Hturn|].
    intros canvas. cbn. now rewrite Hload.
  - rewrite Hcalls. eapply omap_delete_None; [exact Hturn|].
    cbn. now rewrite Hload.
  - intros j path icon Hne Hj Hok. rewrite Hcalls.
    apply list_elem_of_omap. exists (Z.of_nat j, path). split.
    + eapply list_elem_of_lookup_2. now rewrite enumerate_lookup, Hj.
    + cbn. now rewrite Hok.
Qed.

End IconClaims.

Lemma add_icons_to_blur_positions_witness :
  exists w' evs canvas,
    add_icons_to_blur (pil := Demo.pillow) 0%nat demo_icons 3 3 0 demo_world =
      (Ok 1%nat, w') /\
    trace w' = evs /\
    paste_calls evs =
      [(1%nat, Demo.solid 3 3 (0, 0, 9, 255), (-2, 2));
       (1%nat, Demo.solid 3 3 (0, 0, 8, 255), (4, 2))] /\
    heap w' !! 1%nat = Some canvas /\
    getpixel canvas (0, 2) = Some (0, 0, 9, 255) /\
    getpixel canvas (1, 2) = Some (1, 2, 3, 255) /\
    getpixel canvas (4, 2) = Some (0, 0, 8, 255) /\
    getpixel canvas (4, 1) = Some (4, 1, 3, 255).
Proof.
  destruct (add_icons_to_blur_positions (pil := Demo.pillow) demo_world 0%nat
              (Demo.gradient 6 5 3) demo_icons 3 3 0 eq_refl)
    as (w' & evs & Hrun & Htrace & Hcanvas & Hcalls & _).
  eexists w', evs, _. split; [exact Hrun|]. split; [exact Htrace|].
  split; [rewrite Hcalls; vm_compute; reflexivity|].
  split; [exact Hcanvas|]. vm_compute. repeat split.
Defined.

Lemma failed_icon_keeps_slots_witness :
  exists w' evs canvas,
    add_icons_to_blur (pil := Demo.pillow) 0%nat demo_icons 3 3 0 demo_world =
      (Ok 1%nat, w') /\
    trace w' = evs /\
    Printed (IconLoadFailed "icons/b.img"
             (UnidentifiedImageError "cannot identify image file")) ∈ evs /\
    (1%nat, Demo.solid 3 3 (0, 0, 8, 255), (4, 2)) ∈ paste_calls evs /\
    heap w' !! 1%nat = Some canvas /\
    getpixel canvas (4, 2) = Some (0, 0, 8, 255) /\
    getpixel canvas (1, 2) = Some (1, 2, 3, 255).
Proof.
  destruct (failed_icon_keeps_slots (pil := Demo.pillow) demo_world 0%nat
              (Demo.gradient 6 5 3) demo_icons 3 3 0 1%nat "icons/b.img"
              (UnidentifiedImageError "cannot identify image file")
              eq_refl eq_refl eq_refl)
    as (w' & evs & Hrun & Htrace & Hdiag & Hcanvas & _ & Hothers).
  eexists w', evs, _. split; [exact Hrun|]. split; [exact Htrace|].
  split; [exact Hdiag|]. split.
  - apply (Hothers 2%nat "icons/c.img" (Demo.solid 3 3 (0, 0, 8, 255)));
      [discriminate|reflexivity|reflexivity].
  - split; [exact Hcanvas|]. vm_compute. repeat split.
Defined.

Section TimeClaims.
Context {pil : Pillow}.


(** C6.  When [add_time_to_blur] returns it has issued exactly nine
    [draw.text] calls for the caption: eight in black (0,0,0) at the offsets
    (-1,-1), (0,-1), (1,-1), (-1,0), (1,0), (-1,1), (0,1), (1,1) from the
    target position, in that order, then one in white (255,255,255) at the
    target position itself; the image object holds the image obtained by
    drawing the text nine times, in that order and with those fills, and no
    other object has changed. *)
Theorem add_time_to_blur_nine_calls (w w' : World) (image result : ref)
    (img : Image) (time_text : string)
    (blur_height font_size padding vertical_offset : Z) :
  heap w !! image = Some img ->
  add_time_to_blur image time_text blur_height font_size padding vertical_offset w =
    (Ok result, w') ->
  exists font x y img',
    open_font (fs w) "font/YaHei.ttf" font_size = Ok font /\
    trace w' = trace w ++
      [TextCall image (x - 1, y - 1) time_text font (0, 0, 0);
       TextCall image (x, y - 1) time_text font (0, 0, 0);
       TextCall image (x + 1, y - 1) time_text font (0, 0, 0);
       TextCall image (x - 1, y) time_text font (0, 0, 0);
       TextCall image (x + 1, y) time_text font (0, 0, 0);
       TextCall image (x - 1, y + 1) time_text font (0, 0, 0);
       TextCall image (x, y + 1) time_text font (0, 0, 0);
       TextCall image (x + 1, y + 1) time_text font (0, 0, 0);
       TextCall image (x, y) time_text font (255, 255, 255)] /\
    render img time_text font
      [((x - 1, y - 1), (0, 0, 0));
       ((x, y - 1), (0, 0, 0));
       ((x + 1, y - 1), (0, 0, 0));
       ((x - 1, y), (0, 0, 0));
       ((x + 1, y), (0, 0, 0));
       ((x - 1, y + 1), (0, 0, 0));
       ((x, y + 1), (0, 0, 0));
       ((x + 1, y + 1), (0, 0, 0));
       ((x, y), (255, 255, 255))] = Ok img' /\
    result = image /\
    heap w' = <[image := img']> (heap w).
Proof.
  intros Himg Hrun.
  destruct (add_time_to_blur_ok _ _ _ _ _ _ _ _ _ _ Himg Hrun)
    as (font & bbox0 & bbox1 & bbox2 & bbox3 & img' & Hfont & _ & Hrender
        & Hres & ->).
  eexists font, _, _, img'. split; [exact Hfont|].
  split; [reflexivity|]. split; [exact Hrender|]. split; [exact Hres|reflexivity].
Qed.

End TimeClaims.



Lemma add_time_to_blur_nine_calls_witness :
  exists font x y img',
    open_font (pil := Demo.pillow) demo_fs "font/YaHei.ttf" 2 = Ok font /\
    trace demo_time_run.2 =
      [TextCall 0%nat (x - 1, y - 1) "12" font (0, 0, 0);
       TextCall 0%nat (x, y - 1) "12" font (0, 0, 0);
       TextCall 0%nat (x + 1, y - 1) "12" font (0, 0, 0);
       TextCall 0%nat (x - 1, y) "12" font (0, 0, 0);
       TextCall 0%nat (x + 1, y) "12" font (0, 0, 0);
       TextCall 0%nat (x - 1, y + 1) "12" font (0, 0, 0);
       TextCall 0%nat (x, y + 1) "12" font (0, 0, 0);
       TextCall 0%nat (x + 1, y + 1) "12" font (0, 0, 0);
       TextCall 0%nat (x, y) "12" font (255, 255, 255)] /\
    render (pil := Demo.pillow) (Demo.gradient 6 5 3) "12" font
      [((x - 1, y - 1), (0, 0, 0));
       ((x, y - 1), (0, 0, 0));
       ((x + 1, y - 1), (0, 0, 0));
       ((x - 1, y), (0, 0, 0));
       ((x + 1, y), (0, 0, 0));
       ((x - 1, y + 1), (0, 0, 0));
       ((x, y + 1), (0, 0, 0));
       ((x + 1, y + 1), (0, 0, 0));
       ((x, y), (255, 255, 255))] = Ok img' /\
    0%nat = 0%nat /\
    heap demo_time_run.2 = <[0%nat := img']> (heap demo_world).
Proof.
  apply (add_time_to_blur_nine_calls (pil := Demo.pillow) demo_world
           demo_time_run.2 0%nat 0%nat (Demo.gradient 6 5 3) "12" 3 2 1 0).
  - reflexivity.
  - vm_compute. reflexivity.
Defined.

(** The same run, evaluated: the caption is anchored at (3, 2). *)
Example demo_time_run_trace :
  trace demo_time_run.2 =
  text_calls 0%nat "12" (mkFont [Demo.byte_of 1] 2) (caption_calls 3 2).
Proof. vm_compute. reflexivity. Qed.

Section AliasingClaims.
Context {pil : Pillow}.

(** C8.  [apply_bottom_blur] and [add_icons_to_blur] return a newly allocated
    image object and leave every object that existed before, their input
    among them, as it was; [add_time_to_blur] allocates nothing and returns
    its input object, which now holds the rendering of the nine caption calls
    over the input image. *)
Theorem stages_copy_or_mutate (w : World) (image : ref) (img : Image)
    (icon_paths : list string) (time_text : string)
    (blur_radius blur_height icon_size spacing font_size padding
       vertical_offset : Z) :
  heap w !! image = Some img ->
  (forall result w',
     apply_bottom_blur image blur_radius blur_height w = (Ok result, w') ->
     heap w !! result = None /\ is_Some (heap w' !! result) /\
     heap w `prefix_of` heap w' /\ heap w' !! image = Some img) /\
  (forall result w',
     add_icons_to_blur image icon_paths blur_height icon_size spacing w =
       (Ok result, w') ->
     heap w !! result = None /\ is_Some (heap w' !! result) /\
     heap w `prefix_of` heap w' /\ heap w' !! image = Some img) /\
  (forall result w',
     add_time_to_blur image time_text blur_height font_size padding
       vertical_offset w = (Ok result, w') ->
     result = image /\
     exists font x y img',
       render img time_text font (caption_calls x y) = Ok img' /\
       heap w' = <[image := img']> (heap w)).
Proof.
  intros Himg. split; [|split]; intros result w' Hrun.
  - rewrite (apply_bottom_blur_run _ _ _ _ _ Himg) in Hrun.
    destruct (crop img _) as [part|e]; [|discriminate].
    destruct (gaussian_blur blur_radius part) as [blurred|e]; [|discriminate].
    destruct (paste img blurred _) as [out|e]; [|discriminate].
    injection Hrun as <- <-. cbn [heap].
    split; [now apply lookup_ge_None_2|].
    split; [rewrite lookup_heap_fresh; eauto|].
    split; [now apply prefix_app_r|now apply lookup_heap_app].
  - destruct (add_icons_to_blur_run w image img icon_paths blur_height icon_size
                spacing Himg) as [extra Hrun'].
    rewrite Hrun in Hrun'. injection Hrun' as -> ->. cbn [heap].
    split; [now apply lookup_ge_None_2|].
    split; [rewrite lookup_heap_fresh; eauto|].
    split; [now apply prefix_app_r|now apply lookup_heap_app].
  - destruct (add_time_to_blur_ok _ _ _ _ _ _ _ _ _ _ Himg Hrun)
      as (font & bbox0 & bbox1 & bbox2 & bbox3 & img' & _ & _ & Hrender & -> & ->).
    split; [reflexivity|]. eexists font, _, _, img'. split; [exact Hrender|].
    reflexivity.
Qed.

End AliasingClaims.

Lemma stages_copy_or_mutate_witness :
  (heap demo_world !! 1%nat = None /\
   heap (apply_bottom_blur (pil := Demo.pillow) 0%nat 1 3 demo_world).2 !! 0%nat =
     Some (Demo.gradient 6 5 3)) /\
  (heap demo_world !! 1%nat = None /\
   heap (add_icons_to_blur (pil := Demo.pillow) 0%nat demo_icons 3 3 0
           demo_world).2 !! 0%nat = Some (Demo.gradient 6 5 3)) /\
  length (heap demo_time_run.2) = 1%nat /\
  heap demo_time_run.2 !! 0%nat <> Some (Demo.gradient 6 5 3).
Proof.
  destruct (stages_copy_or_mutate (pil := Demo.pillow) demo_world 0%nat
              (Demo.gradient 6 5 3) demo_icons "12" 1 3 3 0 2 1 0 eq_refl)
    as (Hblur & Hicons & Htime).
  split; [|split].
  - destruct (Hblur 1%nat
                (apply_bottom_blur (pil := Demo.pillow) 0%nat 1 3 demo_world).2)
      as (Hfresh & _ & _ & Hsame); [vm_compute; reflexivity|].
    split; [exact Hfresh|exact Hsame].
  - destruct (Hicons 1%nat
                (add_icons_to_blur (pil := Demo.pillow) 0%nat demo_icons 3 3 0
                   demo_world).2)
      as (Hfresh & _ & _ & Hsame); [vm_compute; reflexivity|].
    split; [exact Hfresh|exact Hsame].
  - destruct (Htime 0%nat demo_time_run.2)
      as (_ & font & x & y & img' & _ & Hheap); [vm_compute; reflexivity|].
    split; [now rewrite Hheap, length_insert|].
    vm_compute. discriminate.
Defined.

Section OrchestratorClaims.
Context {pil : Pillow} {osp : OsPath}.


(** C10.  [main] lists the icon directory outside any [try]: when the input
    path exists and the icon directory does not, [main] raises
    [FileNotFoundError] for the icon directory and the world is as it was, so
    no file was processed and nothing was printed. *)
Theorem main_icon_dir_missing (args : Args) (w : World) :
  is_Some (fs w !! arg_input args) ->
  fs w !! arg_icons args = None ->
  main args w = (Raise (FileNotFoundError (arg_icons args)), w).
Proof.
  intros Hinput Hicons. unfold main.
  rewrite run_bind. unfold os_path_exists at 1.
  rewrite bool_decide_true by assumption. cbn [negb].
  rewrite run_bind. unfold os_listdir at 1. now rewrite Hicons.
Qed.

(** C7.  With an empty icon list [process_image] hands the very object that
    [apply_bottom_blur] returned to [add_time_to_blur]; and
    [add_icons_to_blur] itself, called with an empty list, returns a new
    object holding the pixels of its input, draws nothing and prints
    nothing. *)
Theorem empty_icon_list_is_noop (w : World) (image : ref) (img : Image)
    (input_path output_path time_text : string)
    (blur_radius blur_height icon_size spacing font_size : Z) :
  heap w !! image = Some img ->
  process_image input_path output_path [] time_text blur_radius blur_height
    icon_size spacing font_size =
  try_catch
    (img ← Image_open input_path;
     blurred_img ← apply_bottom_blur img blur_radius blur_height;
     final_img ← add_time_to_blur blurred_img time_text blur_height font_size 50 0;
     Image_save final_img output_path;;
     print (ImageSaved output_path))
    (fun e => print (ProcessFailed e)) /\
  add_icons_to_blur image [] blur_height icon_size spacing w =
    (Ok (length (heap w)), push w img).
Proof.
  intros Himg. split; [reflexivity|].
  unfold add_icons_to_blur.
  rewrite run_bind, (run_Image_size _ _ _ Himg). destruct (size img) as [width height].
  now rewrite run_bind, (run_Image_copy _ _ _ Himg).
Qed.

End OrchestratorClaims.


Lemma main_icon_dir_missing_witness :
  main (pil := Demo.pillow) (osp := Demo.os_path)
    (mkArgs "photos" None 1 3 2 2 1 "12" "no-such-dir") batch_world =
  (Raise (FileNotFoundError "no-such-dir"), batch_world).
Proof.
  apply (main_icon_dir_missing (pil := Demo.pillow) (osp := Demo.os_path)
           (mkArgs "photos" None 1 3 2 2 1 "12" "no-such-dir") batch_world).
  - vm_compute. eauto.
  - reflexivity.
Defined.

Lemma empty_icon_list_is_noop_witness :
  add_icons_to_blur (pil := Demo.pillow) 0%nat [] 3 2 1 demo_world =
  (Ok 1%nat, push demo_world (Demo.gradient 6 5 3)).
Proof.
  apply (empty_icon_list_is_noop (pil := Demo.pillow) demo_world 0%nat
           (Demo.gradient 6 5 3) "in.img" "out.img" "12" 1 3 2 1 2).
  reflexivity.
Defined.

(** * Further properties *)

(** ** The blur stage *)

Section BlurExtras.
Context {pil : Pillow}.

(** Inside the box, [paste] puts the pixels of the source. *)
Lemma paste_inside (dst src out : Image) (x0 y0 x1 y1 x y : Z) :
  paste dst src (x0, y0, x1, y1) = Ok out ->
  wf src ->
  x0 <= x < x1 -> y0 <= y < y1 ->
  is_Some (getpixel dst (x, y)) ->
  getpixel out (x, y) = getpixel src (x - x0, y - y0).
Proof.
  unfold paste. case_decide as Hsize; [|discriminate]. intros [= <-] Hwf Hx Hy.
  assert (is_Some (getpixel src (x - x0, y - y0))) as [q Hq].
  { unfold size in Hsize. injection Hsize as Hw Hh.
    replace (x - x0) with (Z.of_nat (Z.to_nat (x - x0))) by lia.
    replace (y - y0) with (Z.of_nat (Z.to_nat (y - y0))) by lia.
    rewrite getpixel_lookup.
    destruct (lookup_lt_is_Some_2 (im_rows src) (Z.to_nat (y - y0)) ltac:(lia))
      as [srow Hsrow].
    rewrite Hsrow. apply lookup_lt_is_Some_2.
    rewrite (proj1 (Forall_lookup _ _) Hwf _ _ Hsrow). lia. }
  intros [p Hp]. etransitivity; [|symmetry; exact Hq].
  assert (0 <= x /\ 0 <= y) as [Hx0 Hy0].
  { unfold getpixel in Hp. destruct ((x <? 0) || (y <? 0)) eqn:Hneg; [discriminate|].
    apply orb_false_iff in Hneg as [Hx0 Hy0]. apply Z.ltb_ge in Hx0, Hy0. lia. }
  revert Hp. rewrite <- (Z2Nat.id x), <- (Z2Nat.id y) by assumption.
  rewrite !getpixel_lookup. cbn [im_rows]. rewrite list_lookup_imap.
  destruct (im_rows dst !! Z.to_nat y) as [row|]; [|discriminate].
  cbn [fmap option_fmap option_map]. rewrite list_lookup_imap.
  intros ->. cbn [fmap option_fmap option_map]. rewrite !Z2Nat.id by assumption.
  replace ((x0 <=? x) && (x <? x1) && (y0 <=? y) && (y <? y1)) with true
    by (symmetry; rewrite !andb_true_iff, !Z.leb_le, !Z.ltb_lt; lia).
  change (Some (default p (getpixel src (x - x0, y - y0))) = Some q).
  now rewrite Hq.
Qed.

Lemma getpixel_is_Some (im : Image) (x y : Z) :
  wf im -> 0 <= x < (size im).1 -> 0 <= y < (size im).2 ->
  is_Some (getpixel im (x, y)).
Proof.
  intros Hwf Hx Hy. unfold size in *. cbn [fst snd] in *.
  replace x with (Z.of_nat (Z.to_nat x)) by lia.
  replace y with (Z.of_nat (Z.to_nat y)) by lia.
  rewrite getpixel_lookup.
  destruct (lookup_lt_is_Some_2 (im_rows im) (Z.to_nat y) ltac:(lia)) as [row Hrow].
  rewrite Hrow. apply lookup_lt_is_Some_2.
  rewrite (proj1 (Forall_lookup _ _) Hwf _ _ Hrow). lia.
Qed.

(** X1.  Inside the band the image returned by [apply_bottom_blur] holds the
    pixels of the Gaussian blur of the cropped band, row [y] of the result
    being row [y - (height - band)] of the blurred crop, where [band] is the
    band height clamped to the image height: the band of the result is
    computed from the band of the input alone. *)
Theorem apply_bottom_blur_band (w w' : World) (image result : ref) (img : Image)
    (blur_radius blur_height : Z) :
  heap w !! image = Some img ->
  wf img ->
  apply_bottom_blur image blur_radius blur_height w = (Ok result, w') ->
  let width := (size img).1 in
  let height := (size img).2 in
  let top := height - clamp_height height blur_height in
  exists part blurred out,
    crop img (0, top, width, height) = Ok part /\
    gaussian_blur blur_radius part = Ok blurred /\
    heap w' !! result = Some out /\
    forall x y, 0 <= x < width -> top <= y < height ->
      getpixel out (x, y) = getpixel blurred (x, y - top).
Proof.
  intros Himg Hwf Hrun width height top.
  rewrite (apply_bottom_blur_run _ _ _ _ _ Himg) in Hrun.
  fold width height top in Hrun.
  destruct (crop img _) as [part|e] eqn:Hcrop; [|discriminate].
  destruct (gaussian_blur blur_radius part) as [blurred|e] eqn:Hblur; [|discriminate].
  destruct (paste img blurred _) as [out|e] eqn:Hpaste; [|discriminate].
  injection Hrun as <- <-. exists part, blurred, out.
  split; [reflexivity|]. split; [exact Hblur|].
  split; [apply lookup_heap_fresh|]. intros x y Hx Hy.
  destruct (crop_size _ _ _ _ _ _ Hcrop) as [_ Hwfp].
  destruct (gaussian_blur_size _ _ _ Hwfp Hblur) as [Hwfb _].
  assert (0 <= top) as Htop.
  { unfold top, clamp_height. destruct (height <? blur_height) eqn:Hc; [lia|].
    apply Z.ltb_ge in Hc. lia. }
  rewrite (paste_inside _ _ _ _ _ _ _ _ _ Hpaste Hwfb) by
    (first [lia|apply getpixel_is_Some; [assumption|fold width; lia|fold height; lia]]).
  now rewrite Z.sub_0_r.
Qed.

(** A pixel of a crop is the pixel of the image at the shifted position. *)
Lemma crop_getpixel (im part : Image) (x0 y0 x1 y1 x y : Z) :
  crop im (x0, y0, x1, y1) = Ok part ->
  x0 <= x < x1 -> y0 <= y < y1 ->
  getpixel part (x - x0, y - y0) =
  Some (default zero_pixel (getpixel im (x, y))).
Proof.
  unfold crop. destruct (x1 <? x0); [discriminate|].
  destruct (y1 <? y0); [discriminate|]. intros [= <-] Hx Hy.
  rewrite <- (Z2Nat.id (x - x0)), <- (Z2Nat.id (y - y0)) by lia.
  rewrite getpixel_lookup. cbn [im_rows].
  rewrite list_lookup_fmap, zrange_lookup by lia. cbn [fmap option_fmap option_map].
  rewrite list_lookup_fmap, zrange_lookup by lia. cbn [fmap option_fmap option_map].
  rewrite !Z2Nat.id by lia.
  now replace (x0 + (x - x0)) with x by lia; replace (y0 + (y - y0)) with y by lia.
Qed.

(** Pasting a crop back at the box it was cropped from changes nothing. *)
Lemma paste_crop_id (dst part : Image) (x0 y0 x1 y1 : Z) :
  wf dst ->
  crop dst (x0, y0, x1, y1) = Ok part ->
  paste dst part (x0, y0, x1, y1) = Ok dst.
Proof.
  intros Hwf Hcrop. destruct (crop_size _ _ _ _ _ _ Hcrop) as [Hsize _].
  unfold paste. rewrite decide_True by assumption.
  destruct dst as [wd rows]. cbn [im_width im_rows]. do 2 f_equal.
  apply list_eq. intros y. rewrite list_lookup_imap.
  destruct (rows !! y) as [row|] eqn:Hrow; [|reflexivity].
  cbn [fmap option_fmap option_map]. f_equal.
  apply list_eq. intros x. rewrite list_lookup_imap.
  destruct (row !! x) as [p|] eqn:Hp; [|reflexivity].
  cbn [fmap option_fmap option_map]. f_equal.
  destruct ((x0 <=? Z.of_nat x) && (Z.of_nat x <? x1) &&
            (y0 <=? Z.of_nat y) && (Z.of_nat y <? y1)) eqn:Hin; [|reflexivity].
  rewrite !andb_true_iff, !Z.leb_le, !Z.ltb_lt in Hin.
  rewrite (crop_getpixel _ _ _ _ _ _ _ _ Hcrop) by lia.
  rewrite getpixel_lookup. cbn [im_rows]. now rewrite Hrow, Hp.
Qed.

(** X2.  When the Gaussian filter gives the band back as it is,
    [apply_bottom_blur] returns a new object holding exactly the input image:
    the band is pasted back where it was cropped from. *)
Theorem apply_bottom_blur_identity_filter (w : World) (image : ref)
    (img part : Image) (blur_radius blur_height : Z) :
  heap w !! image = Some img ->
  wf img ->
  crop img (0, (size img).2 - clamp_height (size img).2 blur_height,
            (size img).1, (size img).2) = Ok part ->
  gaussian_blur blur_radius part = Ok part ->
  apply_bottom_blur image blur_radius blur_height w =
  (Ok (length (heap w)),
   mkWorld (heap w ++ [img; part; part]) (fs w) (trace w)).
Proof.
  intros Himg Hwf Hcrop Hblur.
  rewrite (apply_bottom_blur_run _ _ _ _ _ Himg), Hcrop, Hblur.
  now rewrite (paste_crop_id _ _ _ _ _ _ Hwf Hcrop).
Qed.

(** X3.  A negative band height is not clamped: the crop box is upside down,
    [apply_bottom_blur] raises the [ValueError] of [crop] and returns no
    image; the input object, the trace and the file system are as before,
    only the copy made beforehand remains in the store. *)
Theorem apply_bottom_blur_negative_height (w : World) (image : ref) (img : Image)
    (blur_radius blur_height : Z) :
  heap w !! image = Some img ->
  blur_height < 0 ->
  apply_bottom_blur image blur_radius blur_height w =
  (Raise (ValueError "Coordinate 'lower' is less than 'upper'"), push w img).
Proof.
  intros Himg Hneg. rewrite (apply_bottom_blur_run _ _ _ _ _ Himg).
  unfold crop, clamp_height, size. cbn [fst snd].
  replace (Z.of_nat (im_width img) <? 0) with false
    by (symmetry; apply Z.ltb_ge; lia).
  replace (Z.of_nat (length (im_rows img)) <? blur_height) with false
    by (symmetry; apply Z.ltb_ge; lia).
  replace (Z.of_nat (length (im_rows img)) <? _) with true
    by (symmetry; apply Z.ltb_lt; lia).
  reflexivity.
Qed.

(** X4.  Whether it returns or raises, [apply_bottom_blur] prints nothing,
    issues no drawing call, leaves the file system alone and changes no image
    object that existed before the call. *)
Theorem apply_bottom_blur_no_side_effect (w w' : World) (image : ref)
    (blur_radius blur_height : Z) (r : Result ref) :
  apply_bottom_blur image blur_radius blur_height w = (r, w') ->
  trace w' = trace w /\ fs w' = fs w /\ heap w `prefix_of` heap w'.
Proof.
  assert (forall ims, heap w `prefix_of` heap w ++ ims) as Hpre
    by (intros; now apply prefix_app_r).
  destruct (heap w !! image) as [img|] eqn:Himg.
  - rewrite (apply_bottom_blur_run _ _ _ _ _ Himg).
    destruct (crop img _) as [part|e]; [|intros [= <- <-]; cbn; auto].
    destruct (gaussian_blur blur_radius part) as [blurred|e];
      [|intros [= <- <-]; cbn; auto].
    destruct (paste img blurred _) as [out|e]; intros [= <- <-]; cbn; auto.
  - unfold apply_bottom_blur, Image_size. rewrite !run_bind. unfold load.
    rewrite Himg. intros [= <- <-]. auto.
Qed.

End BlurExtras.
(** ** The icon stage *)

Section IconExtras.
Context {pil : Pillow}.

Lemma snd_enumerate {A : Type} (l : list A) : snd <$> enumerate l = l.
Proof.
  apply list_eq. intros i. rewrite list_lookup_fmap, enumerate_lookup.
  now destruct (l !! i).
Qed.

Lemma enumerate_app {A : Type} (l : list A) (x : A) :
  enumerate (l ++ [x]) = enumerate l ++ [(len l, x)].
Proof.
  unfold enumerate, len. rewrite imap_app. cbn. now rewrite Nat.add_0_r.
Qed.

(** When no icon loads, the loop only prints, one diagnostic per turn, and the
    canvas stays as it was. *)
Lemma icon_turns_all_fail (files : gmap string Node) (icon_size : Z)
    (slot : Z -> Z * Z) (draw_image : ref) (canvas : Image)
    (turns : list (Z * string)) :
  Forall (fun turn => exists e, load_icon files turn.2 icon_size = Raise e) turns ->
  (icon_turns files icon_size slot draw_image canvas turns).2 = canvas /\
  Forall2 (fun turn ev =>
             exists e, load_icon files turn.2 icon_size = Raise e /\
                       ev = Printed (IconLoadFailed turn.2 e))
    turns (icon_turns files icon_size slot draw_image canvas turns).1.
Proof.
  induction 1 as [|[i icon_path] turns [e He] _ [IHc IHe]]; cbn [icon_turns].
  - split; [reflexivity|constructor].
  - unfold icon_turn. cbn [snd] in He. rewrite He.
    destruct (icon_turns files icon_size slot draw_image canvas turns)
      as [evs canvas']. cbn [fst snd] in *. split; [exact IHc|].
    constructor; [exists e; now split|exact IHe].
Qed.

(** X5.  When every icon fails to load, [add_icons_to_blur] still returns: the
    new object holds exactly the pixels of the input, the file system is
    untouched, and the trace grows by one diagnostic per path, in the order
    of the list, each carrying the exception of that path. *)
Theorem add_icons_to_blur_all_fail (w : World) (image : ref) (img : Image)
    (icon_paths : list string) (blur_height icon_size spacing : Z) :
  heap w !! image = Some img ->
  Forall (fun icon_path =>
            exists e, load_icon (fs w) icon_path icon_size = Raise e) icon_paths ->
  exists w' evs,
    add_icons_to_blur image icon_paths blur_height icon_size spacing w =
      (Ok (length (heap w)), w') /\
    heap w' !! length (heap w) = Some img /\
    fs w' = fs w /\
    trace w' = trace w ++ evs /\
    Forall2 (fun icon_path ev =>
               exists e, load_icon (fs w) icon_path icon_size = Raise e /\
                         ev = Printed (IconLoadFailed icon_path e))
      icon_paths evs.
Proof.
  intros Himg Hfail.
  destruct (add_icons_to_blur_run w image img icon_paths blur_height icon_size
              spacing Himg) as [extra Hrun].
  cbn zeta in Hrun.
  match type of Hrun with context [icon_turns ?f ?s ?sl ?d ?c ?t] =>
    destruct (icon_turns_all_fail f s sl d c t) as [Hcanvas Hevs] end.
  { apply Forall_lookup. intros k [i p] Hk. rewrite enumerate_lookup in Hk.
    destruct (icon_paths !! k) as [p'|] eqn:Hp; [|discriminate].
    injection Hk as <- <-. exact (proj1 (Forall_lookup _ _) Hfail k _ Hp). }
  eexists _, _. split; [exact Hrun|]. cbn [heap fs trace]. rewrite Hcanvas.
  split; [apply lookup_heap_fresh|]. split; [reflexivity|]. split; [reflexivity|].
  rewrite <- (snd_enumerate icon_paths) at 1. apply Forall2_fmap_l. exact Hevs.
Qed.

(** X6.  For a band that fits in the image ([blur_height] at most the
    height, so that it is the band that [apply_bottom_blur] blurs), when the
    first and the last icon load, the row of slots on which
    [add_icons_to_blur] pastes is centred in the band up to the rounding of
    the two floor divisions: the image returned is the copy of the input
    with the icons that load pasted at [x_first + i*(s+g)] on the line [y],
    the first and the last paste call are at [x_first] and [x_last], the
    margin right of the last slot exceeds the margin left of the first one
    by 0 or 1 pixel, and the margin below the slots exceeds the margin
    between the top of the band and the slots by 0 or 1 pixel. *)
Theorem add_icons_to_blur_centred (w : World) (image : ref) (img : Image)
    (icon_paths : list string) (blur_height icon_size spacing : Z)
    (first_path last_path : string) (first_icon last_icon : Image) :
  heap w !! image = Some img ->
  blur_height <= (size img).2 ->
  head icon_paths = Some first_path ->
  last icon_paths = Some last_path ->
  load_icon (fs w) first_path icon_size = Ok first_icon ->
  load_icon (fs w) last_path icon_size = Ok last_icon ->
  let band_top := (size img).2 - clamp_height (size img).2 blur_height in
  exists w' evs x_first x_last y,
    add_icons_to_blur image icon_paths blur_height icon_size spacing w =
      (Ok (length (heap w)), w') /\
    trace w' = trace w ++ evs /\
    heap w' !! length (heap w) =
      Some (foldl (fun canvas '(i, icon_path) =>
                     match load_icon (fs w) icon_path icon_size with
                     | Ok icon =>
                         match paste_mask canvas icon
                                 (x_first + i * (icon_size + spacing), y) icon with
                         | Ok canvas' => canvas'
                         | Raise _ => canvas
                         end
                     | Raise _ => canvas
                     end) img (enumerate icon_paths)) /\
    head (paste_calls evs) = Some (length (heap w), first_icon, (x_first, y)) /\
    last (paste_calls evs) = Some (length (heap w), last_icon, (x_last, y)) /\
    x_last = x_first + (len icon_paths - 1) * (icon_size + spacing) /\
    0 <= ((size img).1 - (x_last + icon_size)) - x_first <= 1 /\
    0 <= ((size img).2 - (y + icon_size)) - (y - band_top) <= 1.
Proof.
  intros Himg Hfits Hfirst Hlast Hload1 Hload2 band_top.
  destruct (add_icons_to_blur_result w image img icon_paths blur_height icon_size
              spacing Himg)
    as (w' & evs & Hrun & Htrace & _ & _ & Hcalls & Hcanvas & _).
  assert (band_top = (size img).2 - blur_height) as Htop.
  { unfold band_top, clamp_height.
    destruct (Z.ltb_spec (size img).2 blur_height); [lia|reflexivity]. }
  rewrite Htop. clear band_top Htop.
  cbn zeta in *. destruct (size img) as [W H0]. cbn [fst snd] in *.
  set (N := len icon_paths) in *.
  set (x0 := (W - (N * icon_size + (N - 1) * spacing)) / 2) in *.
  set (y0 := H0 - blur_height + (blur_height - icon_size) / 2) in *.
  exists w', evs, x0, (x0 + (N - 1) * (icon_size + spacing)), y0.
  split; [exact Hrun|]. split; [exact Htrace|]. split; [exact Hcanvas|].
  rewrite Hcalls. split; [|split; [|split; [reflexivity|split]]].
  - destruct icon_paths as [|p rest]; [discriminate|]. injection Hfirst as ->.
    cbn. rewrite Hload1. cbn. now rewrite Z.mul_0_l, Z.add_0_r.
  - apply last_Some in Hlast as [init Hinit]. rewrite Hinit at 1.
    rewrite enumerate_app, omap_app.
    cbn [omap list_omap]. rewrite Hload2. cbn [app]. rewrite last_snoc.
    do 4 f_equal. unfold N, len. rewrite Hinit, length_app. cbn [length]. lia.
  - unfold x0. Z.div_mod_to_equations. nia.
  - unfold y0. Z.div_mod_to_equations. nia.
Qed.

End IconExtras.
(** ** The time stage *)

Lemma painted_refl (image : ref) (text : string) (w : World) :
  painted image text w w.
Proof.
  repeat split. exists []. split; [now rewrite app_nil_r|constructor].
Qed.

Lemma painted_trans (image : ref) (text : string) (w1 w2 w3 : World) :
  painted image text w1 w2 -> painted image text w2 w3 -> painted image text w1 w3.
Proof.
  intros (Hfs & Hlen & Hheap & evs & Htrace & Hevs)
         (Hfs' & Hlen' & Hheap' & evs' & Htrace' & Hevs').
  split; [congruence|]. split; [congruence|].
  split; [intros r Hr; rewrite Hheap', Hheap by assumption; reflexivity|].
  exists (evs ++ evs'). split; [now rewrite Htrace', Htrace, <- app_assoc|].
  now apply Forall_app.
Qed.

Lemma paints_ret {A : Type} (image : ref) (text : string) (a : A) :
  paints image text (mret a).
Proof. intros w. apply painted_refl. Qed.

Lemma paints_raise {A : Type} (image : ref) (text : string) (e : exn) :
  paints image text (@raise A e).
Proof. intros w. apply painted_refl. Qed.

Lemma paints_lift {A : Type} (image : ref) (text : string) (r : Result A) :
  paints image text (lift r).
Proof. intros w. apply painted_refl. Qed.

Lemma paints_load (image : ref) (text : string) (r : ref) :
  paints image text (load r).
Proof. intros w. unfold load. destruct (heap w !! r); apply painted_refl. Qed.

Lemma paints_read_file (image : ref) (text : string) (path : string) :
  paints image text (read_file path).
Proof. intros w. apply painted_refl. Qed.

Lemma paints_bind {A B : Type} (image : ref) (text : string) (m : M A)
    (f : A -> M B) :
  paints image text m -> (forall a, paints image text (f a)) ->
  paints image text (m ≫= f).
Proof.
  intros Hm Hf w. rewrite run_bind. specialize (Hm w).
  destruct (m w) as [[a|e] w1]; cbn [snd] in *; [|exact Hm].
  eapply painted_trans; [exact Hm|apply Hf].
Qed.

Lemma paints_try_catch {A : Type} (image : ref) (text : string) (body : M A)
    (handler : exn -> M A) :
  paints image text body -> (forall e, paints image text (handler e)) ->
  paints image text (try_catch body handler).
Proof.
  intros Hb Hh w. unfold try_catch. specialize (Hb w).
  destruct (body w) as [[a|e] w1]; cbn [snd] in *; [exact Hb|].
  eapply painted_trans; [exact Hb|apply Hh].
Qed.

Lemma paints_for_each {A : Type} (image : ref) (text : string) (l : list A)
    (body : A -> M unit) :
  (forall a, paints image text (body a)) -> paints image text (for_each l body).
Proof.
  intros Hbody. induction l as [|a l IH]; cbn [for_each].
  - apply paints_ret.
  - apply paints_bind; [apply Hbody|intros _; exact IH].
Qed.

Section TimeExtras.
Context {pil : Pillow}.

Lemma paints_ImageDraw_text (image : ref) (text : string) (xy : Z * Z)
    (font : Font) (fill : Color) :
  paints image text (ImageDraw_text image xy text font fill).
Proof.
  intros w. destruct (heap w !! image) as [im|] eqn:Him.
  - rewrite (run_ImageDraw_text _ _ _ _ _ _ _ Him).
    assert (Forall (is_text_call image text) [TextCall image xy text font fill])
      as Hevs by (repeat constructor; now exists xy, font, fill).
    destruct (draw_text im xy text font fill) as [out|e]; cbn [snd].
    + split; [reflexivity|]. split; [apply length_insert|].
      split; [intros r Hr; now apply list_lookup_insert_ne|]. eauto.
    + repeat split. eauto.
  - unfold ImageDraw_text. rewrite run_bind. unfold load. rewrite Him.
    apply painted_refl.
Qed.

Lemma paints_bind_Draw {B : Type} (image : ref) (text : string) (f : ref -> M B) :
  paints image text (f image) -> paints image text (ImageDraw_Draw image ≫= f).
Proof.
  intros Hf w. rewrite run_bind. unfold ImageDraw_Draw. rewrite run_bind.
  unfold load. destruct (heap w !! image); [apply Hf|apply painted_refl].
Qed.

(** X7.  [add_time_to_blur] loads the font and measures the text before it
    draws: when the font cannot be loaded, or the text cannot be measured, it
    raises, and the world is exactly as it was: no drawing call, the image
    untouched. *)
Theorem add_time_to_blur_fails_before_drawing (w : World) (image : ref)
    (img : Image) (time_text : string)
    (blur_height font_size padding vertical_offset : Z) (e : exn) :
  heap w !! image = Some img ->
  open_font (fs w) "font/YaHei.ttf" font_size = Raise e \/
  (exists font, open_font (fs w) "font/YaHei.ttf" font_size = Ok font /\
                textbbox font (0, 0) time_text = Raise e) ->
  exists e',
    add_time_to_blur image time_text blur_height font_size padding vertical_offset w =
    (Raise e', w).
Proof.
  intros Himg Hfail. exists e. unfold add_time_to_blur.
  rewrite run_bind, (run_Image_size _ _ _ Himg).
  destruct (size img) as [width height].
  unfold ImageDraw_Draw. rewrite !run_bind, (run_load _ _ _ Himg).
  cbn [mret M_ret]. rewrite run_bind, run_ImageFont_truetype.
  destruct Hfail as [->|(font & -> & Hbbox)]; [reflexivity|].
  rewrite run_bind. unfold lift at 1. now rewrite Hbbox.
Qed.

(** X8.  Whether it returns or raises, [add_time_to_blur] allocates no image,
    changes no image object other than its input, leaves the file system
    alone, and adds to the trace nothing but [draw.text] calls of the time
    text on its input. *)
Theorem add_time_to_blur_touches_input_only (w w' : World) (image : ref)
    (time_text : string) (blur_height font_size padding vertical_offset : Z)
    (r : Result ref) :
  add_time_to_blur image time_text blur_height font_size padding vertical_offset w =
    (r, w') ->
  fs w' = fs w /\
  length (heap w') = length (heap w) /\
  (forall other, other <> image -> heap w' !! other = heap w !! other) /\
  exists evs,
    trace w' = trace w ++ evs /\
    Forall (fun ev => exists xy font fill,
                        ev = TextCall image xy time_text font fill) evs.
Proof.
  intros Hrun.
  assert (paints image time_text
            (add_time_to_blur image time_text blur_height font_size padding
               vertical_offset)) as Hpaints.
  { unfold add_time_to_blur, Image_size, ImageFont_truetype.
    apply paints_bind;
      [apply paints_bind; [apply paints_load|intros; apply paints_ret]|].
    intros [width height]. apply paints_bind_Draw.
    apply paints_bind.
    { apply paints_bind; [|intros; apply paints_lift].
      apply paints_try_catch; [apply paints_read_file|intros; apply paints_raise]. }
    intros font. apply paints_bind; [apply paints_lift|].
    intros [[[bbox0 bbox1] bbox2] bbox3]. destruct (getmetrics font) as [ascent descent].
    apply paints_bind;
      [apply paints_for_each; intros adj; apply paints_ImageDraw_text|intros _].
    apply paints_bind; [apply paints_ImageDraw_text|intros _; apply paints_ret]. }
  specialize (Hpaints w). rewrite Hrun in Hpaints. exact Hpaints.
Qed.

End TimeExtras.
(** ** [process_image] *)

Lemma keeps_files_ret {A : Type} (a : A) : keeps_files (mret a).
Proof. intros w. reflexivity. Qed.

Lemma keeps_files_raise {A : Type} (e : exn) : keeps_files (@raise A e).
Proof. intros w. reflexivity. Qed.

Lemma keeps_files_lift {A : Type} (r : Result A) : keeps_files (lift r).
Proof. intros w. reflexivity. Qed.

Lemma keeps_files_alloc (im : Image) : keeps_files (alloc im).
Proof. intros w. reflexivity. Qed.

Lemma keeps_files_load (r : ref) : keeps_files (load r).
Proof. intros w. unfold load. now destruct (heap w !! r). Qed.

Lemma keeps_files_store (r : ref) (im : Image) : keeps_files (store r im).
Proof. intros w. reflexivity. Qed.

Lemma keeps_files_emit (ev : Event) : keeps_files (emit ev).
Proof. intros w. reflexivity. Qed.

Lemma keeps_files_read_file (path : string) : keeps_files (read_file path).
Proof. intros w. reflexivity. Qed.

Lemma keeps_files_bind {A B : Type} (m : M A) (f : A -> M B) :
  keeps_files m -> (forall a, keeps_files (f a)) -> keeps_files (m ≫= f).
Proof.
  intros Hm Hf w. rewrite run_bind. specialize (Hm w).
  destruct (m w) as [[a|e] w1]; cbn [snd] in *; [|exact Hm].
  now rewrite Hf.
Qed.

Lemma keeps_files_try_catch {A : Type} (body : M A) (handler : exn -> M A) :
  keeps_files body -> (forall e, keeps_files (handler e)) ->
  keeps_files (try_catch body handler).
Proof.
  intros Hb Hh w. unfold try_catch. specialize (Hb w).
  destruct (body w) as [[a|e] w1]; cbn [snd] in *; [exact Hb|].
  now rewrite Hh.
Qed.

Lemma keeps_files_for_each {A : Type} (l : list A) (body : A -> M unit) :
  (forall a, keeps_files (body a)) -> keeps_files (for_each l body).
Proof.
  intros Hbody. induction l as [|a l IH]; cbn [for_each].
  - apply keeps_files_ret.
  - apply keeps_files_bind; [apply Hbody|intros _; exact IH].
Qed.

Create HintDb files discriminated.

#[export] Hint Resolve keeps_files_ret keeps_files_raise keeps_files_lift
  keeps_files_alloc keeps_files_load keeps_files_store keeps_files_emit
  keeps_files_read_file keeps_files_bind keeps_files_try_catch
  keeps_files_for_each : files.

Ltac still_files :=
  repeat first
    [ progress intros
    | match goal with
      | |- keeps_files (let '(_, _) := ?p in _) => destruct p
      | |- keeps_files (match ?p with (_, _) => _ end) => destruct p
      | |- keeps_files (print _) => exact (keeps_files_emit _)
      | |- keeps_files (_ ≫= _) => apply keeps_files_bind
      | |- keeps_files (try_catch _ _) => apply keeps_files_try_catch
      | |- keeps_files (for_each _ _) => apply keeps_files_for_each
      end
    | solve [auto with files] ].

Lemma fails_clean_bind_l {A B : Type} (files : gmap string Node) (m : M A)
    (f : A -> M B) :
  fails_clean files m -> fails_clean files (m ≫= f).
Proof.
  intros Hm w Hw. destruct (Hm w Hw) as (e & w' & Hrun & Hfs).
  exists e, w'. now rewrite run_bind, Hrun.
Qed.

Lemma fails_clean_bind_r {A B : Type} (files : gmap string Node) (m : M A)
    (f : A -> M B) :
  keeps_files m -> (forall a, fails_clean files (f a)) ->
  fails_clean files (m ≫= f).
Proof.
  intros Hm Hf w Hw. rewrite run_bind. specialize (Hm w).
  destruct (m w) as [[a|e] w1]; cbn [snd] in *.
  - apply Hf. congruence.
  - exists e, w1. split; [reflexivity|congruence].
Qed.

Section ProcessExtras.
Context {pil : Pillow}.

Lemma keeps_files_apply_bottom_blur (image : ref) (blur_radius blur_height : Z) :
  keeps_files (apply_bottom_blur image blur_radius blur_height).
Proof.
  unfold apply_bottom_blur, Image_size, Image_copy, Image_crop,
    Image_filter_GaussianBlur, Image_paste.
  still_files.
Qed.

Lemma keeps_files_add_icons_to_blur (image : ref) (icon_paths : list string)
    (blur_height icon_size spacing : Z) :
  keeps_files (add_icons_to_blur image icon_paths blur_height icon_size spacing).
Proof.
  unfold add_icons_to_blur, Image_size, Image_copy, Image_open, Image_convert,
    Image_resize, Image_paste_mask.
  still_files.
Qed.

Lemma keeps_files_Image_open (path : string) : keeps_files (Image_open path).
Proof. unfold Image_open. still_files. Qed.

(** The time stage raises, the files untouched, when the font does not load. *)
Lemma fails_clean_add_time_to_blur (files : gmap string Node) (image : ref)
    (time_text : string) (blur_height font_size padding vertical_offset : Z)
    (e : exn) :
  open_font files "font/YaHei.ttf" font_size = Raise e ->
  fails_clean files
    (add_time_to_blur image time_text blur_height font_size padding
       vertical_offset).
Proof.
  intros Hfont w Hw. destruct (heap w !! image) as [img|] eqn:Himg.
  - exists e, w. split; [|exact Hw]. unfold add_time_to_blur.
    rewrite run_bind, (run_Image_size _ _ _ Himg). destruct (size img) as [width height].
    unfold ImageDraw_Draw. rewrite !run_bind, (run_load _ _ _ Himg).
    cbn [mret M_ret]. now rewrite run_bind, run_ImageFont_truetype, Hw, Hfont.
  - exists ReferenceError, w. split; [|exact Hw].
    unfold add_time_to_blur, Image_size. rewrite !run_bind. unfold load.
    now rewrite Himg.
Qed.

(** X9.  When the input cannot be opened or decoded, [process_image] does
    nothing but print the failure: no image object is allocated, no drawing
    call is issued, the file system is untouched and the trace grows by the
    one line carrying the exception of the open. *)
Theorem process_image_unreadable_input (w : World)
    (input_path output_path : string) (icon_paths : list string)
    (time_text : string) (blur_radius blur_height icon_size spacing font_size : Z)
    (e : exn) :
  open_image (fs w) input_path = Raise e ->
  process_image input_path output_path icon_paths time_text blur_radius
    blur_height icon_size spacing font_size w =
  (Ok tt, mkWorld (heap w) (fs w) (trace w ++ [Printed (ProcessFailed e)])).
Proof.
  unfold open_image. intros Hopen. unfold process_image, try_catch.
  rewrite run_bind, run_Image_open.
  destruct (file_content (fs w) input_path) as [content|e'].
  - now rewrite Hopen.
  - now injection Hopen as ->.
Qed.

(** X10.  When the typeface cannot be loaded, [process_image] saves nothing:
    whatever the input and the icons, the file system after the call is the
    one before it and the last line printed reports a failure. *)
Theorem process_image_font_missing (w : World)
    (input_path output_path : string) (icon_paths : list string)
    (time_text : string) (blur_radius blur_height icon_size spacing font_size : Z)
    (e : exn) :
  open_font (fs w) "font/YaHei.ttf" font_size = Raise e ->
  exists w' e',
    process_image input_path output_path icon_paths time_text blur_radius
      blur_height icon_size spacing font_size w = (Ok tt, w') /\
    fs w' = fs w /\
    last (trace w') = Some (Printed (ProcessFailed e')).
Proof.
  intros Hfont. unfold process_image.
  match goal with |- context [try_catch ?b _] => set (body := b) end.
  assert (fails_clean (fs w) body) as Hbody.
  { unfold body.
    apply fails_clean_bind_r; [apply keeps_files_Image_open|intros img].
    apply fails_clean_bind_r; [apply keeps_files_apply_bottom_blur|intros blurred_img].
    apply fails_clean_bind_r;
      [destruct icon_paths; [apply keeps_files_ret|apply keeps_files_add_icons_to_blur]
      |intros icon_img].
    apply fails_clean_bind_l. eapply fails_clean_add_time_to_blur. exact Hfont. }
  destruct (Hbody w eq_refl) as (e' & w1 & Hrun & Hfs).
  unfold try_catch. rewrite Hrun. eexists _, e'. split; [reflexivity|].
  split; [exact Hfs|]. cbn [trace]. apply last_snoc.
Qed.

Lemma bind_Ok_inv {A B : Type} (m : M A) (f : A -> M B) (w w' : World) (b : B) :
  (m ≫= f) w = (Ok b, w') ->
  exists a w1, m w = (Ok a, w1) /\ f a w1 = (Ok b, w').
Proof.
  rewrite run_bind. destruct (m w) as [[a|e] w1]; [eauto|discriminate].
Qed.

(** The icon loop only issues paste calls on [draw_image] and diagnostics. *)
Lemma icon_turns_events (files : gmap string Node) (icon_size : Z)
    (slot : Z -> Z * Z) (draw_image : ref) (turns : list (Z * string))
    (canvas : Image) :
  Forall (is_icon_event draw_image)
    (icon_turns files icon_size slot draw_image canvas turns).1.
Proof.
  revert canvas. induction turns as [|[i icon_path] turns IH]; intros canvas;
    cbn [icon_turns]; [constructor|].
  assert (Forall (is_icon_event draw_image)
            (icon_turn files icon_size slot draw_image canvas (i, icon_path)).1)
    as Hturn.
  { assert (forall icon xy, is_icon_event draw_image (PasteCall draw_image icon xy))
      as Hpaste by (intros; left; eauto).
    assert (forall p e, is_icon_event draw_image (Printed (IconLoadFailed p e)))
      as Hdiag by (intros; right; eauto).
    unfold icon_turn. destruct (load_icon files icon_path icon_size) as [icon|e];
      [destruct (paste_mask canvas icon (slot i) icon) as [canvas'|e]|];
      cbn [fst]; repeat (apply List.Forall_cons; [auto|]); apply List.Forall_nil. }
  destruct (icon_turn files icon_size slot draw_image canvas (i, icon_path))
    as [evs canvas'].
  specialize (IH canvas').
  destruct (icon_turns files icon_size slot draw_image canvas' turns)
    as [evs' canvas'']. cbn [fst] in *. now apply Forall_app.
Qed.

(** X11.  When [process_image] ends by printing that the image was saved, the
    trace it added is, in this order: the events of the icon loop (paste calls
    and icon diagnostics), the nine caption calls, the saved line; the paste
    calls and the caption calls all go to one object, and the image written
    to the output path is the content of that object after all of them. *)
Theorem process_image_saves_what_it_drew (w w' : World)
    (input_path output_path : string) (icon_paths : list string)
    (time_text : string) (blur_radius blur_height icon_size spacing font_size : Z) :
  process_image input_path output_path icon_paths time_text blur_radius
    blur_height icon_size spacing font_size w = (Ok tt, w') ->
  last (trace w') = Some (Printed (ImageSaved output_path)) ->
  exists target final icon_evs font x y,
    trace w' =
      trace w ++ icon_evs
        ++ text_calls target time_text font (caption_calls x y)
        ++ [Printed (ImageSaved output_path)] /\
    Forall (is_icon_event target) icon_evs /\
    heap w' !! target = Some final /\
    save_to (fs w) output_path final = Ok (fs w').
Proof.
  unfold process_image, try_catch.
  match goal with |- context [match ?b w with _ => _ end] => set (body := b) end.
  destruct (body w) as [[[]|e] w0] eqn:Hbody.
  2:{ intros [= <-]. cbn [trace]. rewrite last_snoc. discriminate. }
  intros [= ->] _. unfold body in Hbody. clear body.
  apply bind_Ok_inv in Hbody as (img & w1 & Hopen & Hbody).
  rewrite run_Image_open in Hopen.
  destruct (file_content (fs w) input_path) as [content|e]; [|discriminate].
  destruct (decode content) as [im|e]; [|discriminate].
  injection Hopen as <- <-.
  apply bind_Ok_inv in Hbody as (blurred_img & w2 & Hblur & Hbody).
  rewrite (apply_bottom_blur_run _ _ im) in Hblur
    by (unfold push; cbn; apply lookup_heap_fresh).
  destruct (crop im _) as [part|e]; [|discriminate].
  destruct (gaussian_blur blur_radius part) as [blurred|e]; [|discriminate].
  destruct (paste im blurred _) as [out|e]; [|discriminate].
  injection Hblur as <- <-.
  apply bind_Ok_inv in Hbody as (icon_img & w3 & Hicons & Hbody).
  assert (exists canvas icon_evs,
            heap w3 !! icon_img = Some canvas /\ fs w3 = fs w /\
            trace w3 = trace w ++ icon_evs /\
            Forall (is_icon_event icon_img) icon_evs)
    as (canvas & icon_evs & Hcanvas & Hfs3 & Htrace3 & Hevs).
  { destruct icon_paths as [|icon_path icon_paths'] eqn:Hpaths.
    - injection Hicons as <- <-. exists out, []. unfold push. cbn [heap fs trace].
      split; [apply lookup_heap_fresh|]. rewrite app_nil_r. repeat split. constructor.
    - rewrite <- Hpaths in Hicons. clear Hpaths.
      match type of Hicons with add_icons_to_blur ?i ?p ?bh ?s ?g ?w0 = _ =>
        destruct (add_icons_to_blur_run w0 i out p bh s g) as [extra Hrun] end.
      { unfold push. cbn [heap]. apply lookup_heap_fresh. }
      cbn zeta in Hrun.
      match type of Hrun with context [icon_turns ?a ?b ?c ?d ?e ?f] =>
        pose proof (icon_turns_events a b c d f e) as Hevs;
        set (turns := icon_turns a b c d e f) in * end.
      rewrite Hrun in Hicons. injection Hicons as <- <-.
      exists turns.2, turns.1. unfold push in *. cbn [heap fs trace] in *.
      split; [apply lookup_heap_fresh|]. split; [reflexivity|].
      split; [reflexivity|exact Hevs]. }
  apply bind_Ok_inv in Hbody as (final_img & w4 & Htime & Hbody).
  destruct (add_time_to_blur_ok _ _ _ _ _ _ _ _ _ _ Hcanvas Htime)
    as (font & bbox0 & bbox1 & bbox2 & bbox3 & final & _ & _ & _ & -> & ->).
  apply bind_Ok_inv in Hbody as ([] & w5 & Hsave & Hprint).
  unfold Image_save in Hsave. rewrite run_bind in Hsave.
  erewrite run_load in Hsave by (cbn [heap]; eapply lookup_insert_heap; eassumption).
  unfold write_image in Hsave. cbn [heap fs trace] in Hsave.
  destruct (save_to (fs w3) output_path final) as [files'|e] eqn:Hsaved;
    [|discriminate].
  injection Hsave as <-. injection Hprint as <-. cbn [heap fs trace].
  eexists icon_img, final, icon_evs, font, _, _.
  split; [rewrite Htrace3, <- !app_assoc; reflexivity|].
  split; [exact Hevs|]. split; [eapply lookup_insert_heap; eassumption|].
  now rewrite <- Hfs3.
Qed.





End ProcessExtras.
(** ** [main] *)

Lemma foldl_append_fmap {A B : Type} (g : A -> B) (l : list A) (acc : list B) :
  foldl (fun acc a => acc ++ [g a]) acc l = acc ++ (g <$> l).
Proof.
  revert acc. induction l as [|a l IH]; intros acc; cbn.
  - now rewrite app_nil_r.
  - now rewrite IH, <- app_assoc.
Qed.

Section MainExtras.
Context {pil : Pillow} {osp : OsPath}.



(** [main] once the input exists and the icon directory is listed. *)
Lemma main_run (args : Args) (w : World) (node : Node) (icon_entries : list string) :
  fs w !! arg_input args = Some node ->
  fs w !! arg_icons args = Some (Dir icon_entries) ->
  let icon_paths := path_join (arg_icons args) <$> icon_entries in
  main args w =
  ((match node with
    | File _ =>
        process_image (arg_input args) (resolve_output args) icon_paths
          (arg_time args) (arg_radius args) (arg_height args)
          (arg_iconsize args) (arg_spacing args) (arg_fontsize args)
    | Dir entries =>
        for_each entries (fun filename =>
          process_image (path_join (arg_input args) filename)
            (path_join (resolve_output args) filename) icon_paths
            (arg_time args) (arg_radius args) (arg_height args)
            (arg_iconsize args) (arg_spacing args) (arg_fontsize args))
    end);; print AllDone) w.
Proof.
  intros Hinput Hicons icon_paths. unfold main. fold (resolve_output args).
  rewrite run_bind. unfold os_path_exists at 1. rewrite Hinput.
  rewrite bool_decide_true by eauto. cbn [negb].
  rewrite run_bind. unfold os_listdir at 1. rewrite Hicons.
  rewrite foldl_append_fmap. cbn [app]. fold icon_paths.
  rewrite run_bind. unfold os_path_isdir at 1. rewrite Hinput.
  destruct node as [content|entries]; [reflexivity|].
  rewrite !run_bind. unfold os_listdir at 1. now rewrite Hinput.
Qed.

(** What [main] prints once the input exists and the icon directory is
    listed: one report for a file, one per entry for a directory, then the
    final line. *)
Lemma main_trace (args : Args) (w : World) (node : Node) (icon_entries : list string) :
  fs w !! arg_input args = Some node ->
  fs w !! arg_icons args = Some (Dir icon_entries) ->
  exists w' evs,
    main args w = (Ok tt, w') /\
    trace w' = trace w ++ evs ++ [Printed AllDone] /\
    match node with
    | File _ =>
        reports evs = [Printed (ImageSaved (resolve_output args))] \/
        exists e, reports evs = [Printed (ProcessFailed e)]
    | Dir entries =>
        Forall2 (fun filename report =>
                   report =
                     Printed (ImageSaved (path_join (resolve_output args) filename)) \/
                   exists e, report = Printed (ProcessFailed e))
          entries (reports evs)
    end.
Proof.
  intros Hinput Hicons. rewrite (main_run _ _ _ _ Hinput Hicons). rewrite run_bind.
  destruct node as [content|entries].
  - match goal with |- context [process_image ?a ?b ?c ?d ?e ?f ?g ?h ?i w] =>
      destruct (process_image_reports a b c d e f g h i w)
        as (w1 & evs & Hrun & Htrace & Hrep)
    end.
    rewrite Hrun. eexists _, evs. split; [reflexivity|]. cbn [trace].
    split; [now rewrite Htrace, <- app_assoc|exact Hrep].
  - match goal with |- context [for_each entries ?b] => set (body := b) end.
    destruct (for_each_reports body
                (fun filename => path_join (resolve_output args) filename)
                entries w) as (w1 & evs & Hrun & Htrace & Hrep).
    { intros filename w0. apply process_image_reports. }
    rewrite Hrun. eexists _, evs. split; [reflexivity|]. cbn [trace].
    split; [now rewrite Htrace, <- app_assoc|exact Hrep].
Qed.

(** X12.  When the input path does not exist, [main] prints the missing-input
    line and returns: it does not look at the icon directory, processes
    nothing, and does not print the final line. *)
Theorem main_missing_input (args : Args) (w : World) :
  fs w !! arg_input args = None ->
  main args w =
  (Ok tt,
   mkWorld (heap w) (fs w) (trace w ++ [Printed (InputMissing (arg_input args))])).
Proof.
  intros Hinput. unfold main. rewrite run_bind. unfold os_path_exists at 1.
  rewrite Hinput, bool_decide_false by (intros [node Hnode]; discriminate).
  reflexivity.
Qed.

(** X13.  [main] raises exactly when the input path exists and the icon path
    is not a directory that can be listed; in every other case it returns. *)
Theorem main_raises_iff (args : Args) (w : World) :
  (exists e, (main args w).1 = Raise e) <->
  is_Some (fs w !! arg_input args) /\
  forall icon_entries, fs w !! arg_icons args <> Some (Dir icon_entries).
Proof.
  split.
  - intros [e Hraise]. destruct (fs w !! arg_input args) as [node|] eqn:Hinput.
    + split; [eauto|]. intros icon_entries Hicons.
      destruct (main_trace args w node icon_entries Hinput Hicons)
        as (w' & evs & Hrun & _).
      rewrite Hrun in Hraise. discriminate.
    + exfalso. revert Hraise. unfold main. rewrite run_bind.
      unfold os_path_exists at 1.
      rewrite Hinput, bool_decide_false by (intros [node Hnode]; discriminate).
      discriminate.
  - intros [Hinput Hicons]. unfold main. rewrite run_bind.
    unfold os_path_exists at 1. rewrite bool_decide_true by assumption.
    cbn [negb]. rewrite run_bind. unfold os_listdir at 1.
    destruct (fs w !! arg_icons args) as [[content|icon_entries]|] eqn:Hdir.
    + eauto.
    + now destruct (Hicons icon_entries).
    + eauto.
Qed.


(** X15.  Once the input exists and the icon directory is listed, [main] is
    one call of [process_image] for an input file, or one call per entry, in
    listing order, for an input directory, followed by the final line; each
    call gets every entry of the icon directory, in listing order and without
    any filtering, joined to the directory name. *)
Theorem main_dispatch (args : Args) (w : World) (node : Node)
    (icon_entries : list string) :
  fs w !! arg_input args = Some node ->
  fs w !! arg_icons args = Some (Dir icon_entries) ->
  let icon_paths := path_join (arg_icons args) <$> icon_entries in
  let process input_path output_path :=
    process_image input_path output_path icon_paths (arg_time args)
      (arg_radius args) (arg_height args) (arg_iconsize args)
      (arg_spacing args) (arg_fontsize args) in
  main args w =
  match node with
  | File _ =>
      (process (arg_input args) (resolve_output args);; print AllDone) w
  | Dir entries =>
      (for_each entries (fun filename =>
         process (path_join (arg_input args) filename)
           (path_join (resolve_output args) filename));;
       print AllDone) w
  end.
Proof.
  intros Hinput Hicons icon_paths process.
  rewrite (main_run _ _ _ _ Hinput Hicons). fold icon_paths.
  destruct node; reflexivity.
Qed.

End MainExtras.
(** ** Instances of the further properties *)

Lemma apply_bottom_blur_band_witness :
  exists part blurred out,
    crop (Demo.gradient 6 5 3) (0, 2, 6, 5) = Ok part /\
    gaussian_blur (Pillow := Demo.pillow) 1 part = Ok blurred /\
    heap (apply_bottom_blur (pil := Demo.pillow) 0%nat 1 3 demo_world).2 !! 1%nat =
      Some out /\
    forall x y, 0 <= x < 6 -> 2 <= y < 5 ->
      getpixel out (x, y) = getpixel blurred (x, y - 2).
Proof.
  apply (apply_bottom_blur_band (pil := Demo.pillow) demo_world
           (apply_bottom_blur (pil := Demo.pillow) 0%nat 1 3 demo_world).2
           0%nat 1%nat (Demo.gradient 6 5 3) 1 3).
  - reflexivity.
  - unfold wf. vm_compute. repeat constructor.
  - vm_compute. reflexivity.
Defined.

Lemma apply_bottom_blur_identity_filter_witness :
  apply_bottom_blur (pil := Demo.pillow) 0%nat 1 2 flat_world =
  (Ok 1%nat,
   mkWorld [Demo.solid 3 3 (7, 7, 7, 255); Demo.solid 3 3 (7, 7, 7, 255);
            Demo.solid 3 2 (7, 7, 7, 255); Demo.solid 3 2 (7, 7, 7, 255)]
     demo_fs []).
Proof.
  apply (apply_bottom_blur_identity_filter (pil := Demo.pillow) flat_world 0%nat
           (Demo.solid 3 3 (7, 7, 7, 255)) (Demo.solid 3 2 (7, 7, 7, 255)) 1 2).
  - reflexivity.
  - unfold wf. vm_compute. repeat constructor.
  - vm_compute. reflexivity.
  - vm_compute. reflexivity.
Defined.

Lemma apply_bottom_blur_negative_height_witness :
  apply_bottom_blur (pil := Demo.pillow) 0%nat 1 (-1) demo_world =
  (Raise (ValueError "Coordinate 'lower' is less than 'upper'"),
   push demo_world (Demo.gradient 6 5 3)).
Proof.
  apply (apply_bottom_blur_negative_height (pil := Demo.pillow) demo_world 0%nat
           (Demo.gradient 6 5 3) 1 (-1)).
  - reflexivity.
  - reflexivity.
Defined.

Lemma apply_bottom_blur_no_side_effect_witness :
  trace (apply_bottom_blur (pil := Demo.pillow) 0%nat (-1) 3 demo_world).2 = [] /\
  fs (apply_bottom_blur (pil := Demo.pillow) 0%nat (-1) 3 demo_world).2 = demo_fs /\
  heap demo_world
    `prefix_of` heap (apply_bottom_blur (pil := Demo.pillow) 0%nat (-1) 3 demo_world).2.
Proof.
  apply (apply_bottom_blur_no_side_effect (pil := Demo.pillow) demo_world _ 0%nat
           (-1) 3 (Raise (ValueError "radius must be >= 0"))).
  vm_compute. reflexivity.
Defined.

Lemma add_icons_to_blur_all_fail_witness :
  exists w' evs,
    add_icons_to_blur (pil := Demo.pillow) 0%nat ["icons/b.img"; "icons/none.img"]
      3 2 1 demo_world = (Ok 1%nat, w') /\
    heap w' !! 1%nat = Some (Demo.gradient 6 5 3) /\
    fs w' = demo_fs /\
    trace w' = evs /\
    length evs = 2%nat.
Proof.
  destruct (add_icons_to_blur_all_fail (pil := Demo.pillow) demo_world 0%nat
              (Demo.gradient 6 5 3) ["icons/b.img"; "icons/none.img"] 3 2 1 eq_refl)
    as (w' & evs & Hrun & Hheap & Hfs & Htrace & Hevs).
  - repeat constructor; eexists; vm_compute; reflexivity.
  - exists w', evs. split; [exact Hrun|]. split; [exact Hheap|].
    split; [exact Hfs|]. split; [exact Htrace|].
    symmetry. exact (Forall2_length _ _ _ Hevs).
Defined.

Lemma add_icons_to_blur_centred_witness :
  exists w' evs x_first x_last y canvas,
    add_icons_to_blur (pil := Demo.pillow) 0%nat demo_icons 3 3 0 demo_world =
      (Ok 1%nat, w') /\
    trace w' = evs /\
    heap w' !! 1%nat = Some canvas /\
    getpixel canvas (x_first + 2, y) = Some (0, 0, 9, 255) /\
    getpixel canvas (x_last, y) = Some (0, 0, 8, 255) /\
    head (paste_calls evs) = Some (1%nat, Demo.solid 3 3 (0, 0, 9, 255), (x_first, y)) /\
    last (paste_calls evs) = Some (1%nat, Demo.solid 3 3 (0, 0, 8, 255), (x_last, y)) /\
    0 <= (6 - (x_last + 3)) - x_first <= 1 /\
    0 <= (5 - (y + 3)) - (y - (5 - 3)) <= 1.
Proof.
  destruct (add_icons_to_blur_centred (pil := Demo.pillow) demo_world 0%nat
              (Demo.gradient 6 5 3) demo_icons 3 3 0 "icons/a.img" "icons/c.img"
              (Demo.solid 3 3 (0, 0, 9, 255)) (Demo.solid 3 3 (0, 0, 8, 255))
              eq_refl ltac:(vm_compute; discriminate) eq_refl eq_refl eq_refl eq_refl)
    as (w' & evs & x_first & x_last & y & Hrun & Htrace & Hcanvas & Hhead & Hlast
        & Hrow & Hx & Hy).
  assert (x_first = -2 /\ y = 2) as [-> ->].
  { assert (evs = trace (add_icons_to_blur (pil := Demo.pillow) 0%nat
                           demo_icons 3 3 0 demo_world).2) as Hevs
      by (rewrite Hrun; cbn [snd]; rewrite Htrace; reflexivity).
    rewrite Hevs in Hhead. vm_compute in Hhead. now injection Hhead as <- <-. }
  assert (x_last = 4) as -> by (rewrite Hrow; reflexivity).
  eexists w', evs, (-2), 4, 2, _. split; [exact Hrun|]. split; [exact Htrace|].
  split; [exact Hcanvas|].
  split; [vm_compute; reflexivity|]. split; [vm_compute; reflexivity|].
  split; [exact Hhead|]. split; [exact Hlast|]. split; [exact Hx|exact Hy].
Defined.

Lemma add_time_to_blur_fails_before_drawing_witness :
  exists e',
    add_time_to_blur (pil := Demo.pillow) 0%nat "12" 3 0 1 0 demo_world =
    (Raise e', demo_world).
Proof.
  apply (add_time_to_blur_fails_before_drawing (pil := Demo.pillow) demo_world
           0%nat (Demo.gradient 6 5 3) "12" 3 0 1 0
           (ValueError "font size must be greater than 0")).
  - reflexivity.
  - left. reflexivity.
Defined.

Lemma add_time_to_blur_touches_input_only_witness :
  fs demo_time_run.2 = demo_fs /\
  length (heap demo_time_run.2) = 1%nat /\
  (forall other, other <> 0%nat -> heap demo_time_run.2 !! other = [Demo.gradient 6 5 3] !! other) /\
  exists evs,
    trace demo_time_run.2 = evs /\
    Forall (fun ev => exists xy font fill, ev = TextCall 0%nat xy "12" font fill) evs.
Proof.
  apply (add_time_to_blur_touches_input_only (pil := Demo.pillow) demo_world
           demo_time_run.2 0%nat "12" 3 2 1 0 (Ok 0%nat)).
  vm_compute. reflexivity.
Defined.

Lemma process_image_unreadable_input_witness :
  process_image (pil := Demo.pillow) "photos/bad.img" "out/bad.img" ["icons/a.img"]
    "12" 1 3 2 1 2 batch_world =
  (Ok tt,
   mkWorld [] batch_fs
     [Printed (ProcessFailed (UnidentifiedImageError "cannot identify image file"))]).
Proof.
  apply (process_image_unreadable_input (pil := Demo.pillow) batch_world
           "photos/bad.img" "out/bad.img" ["icons/a.img"] "12" 1 3 2 1 2).
  reflexivity.
Defined.

Lemma process_image_font_missing_witness :
  exists w' e',
    process_image (pil := Demo.pillow) "photos/a.img" "out/a.img" ["icons/a.img"]
      "12" 1 3 2 1 0 batch_world = (Ok tt, w') /\
    fs w' = batch_fs /\
    last (trace w') = Some (Printed (ProcessFailed e')).
Proof.
  apply (process_image_font_missing (pil := Demo.pillow) batch_world
           "photos/a.img" "out/a.img" ["icons/a.img"] "12" 1 3 2 1 0
           (ValueError "font size must be greater than 0")).
  reflexivity.
Defined.

Lemma process_image_saves_what_it_drew_witness :
  exists target final icon_evs font x y,
    trace (process_image (pil := Demo.pillow) "photos/a.img" "out/a.img"
             ["icons/a.img"] "12" 1 3 2 1 2 batch_world).2 =
      icon_evs ++ text_calls target "12" font (caption_calls x y)
        ++ [Printed (ImageSaved "out/a.img")] /\
    Forall (is_icon_event target) icon_evs /\
    heap (process_image (pil := Demo.pillow) "photos/a.img" "out/a.img"
            ["icons/a.img"] "12" 1 3 2 1 2 batch_world).2 !! target = Some final /\
    save_to (Pillow := Demo.pillow) batch_fs "out/a.img" final =
      Ok (fs (process_image (pil := Demo.pillow) "photos/a.img" "out/a.img"
                ["icons/a.img"] "12" 1 3 2 1 2 batch_world).2).
Proof.
  apply (process_image_saves_what_it_drew (pil := Demo.pillow) batch_world
           (process_image (pil := Demo.pillow) "photos/a.img" "out/a.img"
              ["icons/a.img"] "12" 1 3 2 1 2 batch_world).2
           "photos/a.img" "out/a.img" ["icons/a.img"] "12" 1 3 2 1 2).
  - vm_compute. reflexivity.
  - vm_compute. reflexivity.
Defined.

Lemma main_missing_input_witness :
  main (pil := Demo.pillow) (osp := Demo.os_path)
    (mkArgs "nowhere" None 1 3 2 2 1 "12" "no-such-dir") batch_world =
  (Ok tt, mkWorld [] batch_fs [Printed (InputMissing "nowhere")]).
Proof.
  apply (main_missing_input (pil := Demo.pillow) (osp := Demo.os_path)
           (mkArgs "nowhere" None 1 3 2 2 1 "12" "no-such-dir") batch_world).
  reflexivity.
Defined.

Lemma main_raises_iff_witness :
  exists e,
    (main (pil := Demo.pillow) (osp := Demo.os_path)
       (mkArgs "photos" None 1 3 2 2 1 "12" "photos/a.img") batch_world).1 = Raise e.
Proof.
  apply (proj2 (main_raises_iff (pil := Demo.pillow) (osp := Demo.os_path)
                  (mkArgs "photos" None 1 3 2 2 1 "12" "photos/a.img") batch_world)).
  split; [vm_compute; eauto|]. intros icon_entries. vm_compute. discriminate.
Defined.


Lemma main_dispatch_witness :
  main (pil := Demo.pillow) (osp := Demo.os_path) batch_args batch_world =
  (for_each ["a.img"; "bad.img"; "c.img"] (fun filename =>
     process_image (pil := Demo.pillow)
       (path_join (OsPath := Demo.os_path) "photos" filename)
       (path_join (OsPath := Demo.os_path) "out" filename)
       ["icons/a.img"] "12" 1 3 2 1 2);;
   print AllDone) batch_world.
Proof.
  apply (main_dispatch (pil := Demo.pillow) (osp := Demo.os_path) batch_args
           batch_world (Dir ["a.img"; "bad.img"; "c.img"]) ["a.img"]).
  - reflexivity.
  - reflexivity.
Defined.

